(** * Gwynne Care Notes: the note parser of [src/app/page.js]

    A shallow embedding of [parseAndStructure] (page.js, lines 74-129) and of
    the JavaScript built-ins it calls, followed by the properties of the
    parser that the specification states.

    - JavaScript strings are sequences of UTF-16 code units: [list N].
    - JavaScript numbers are IEEE 754 binary64 values: [spec_float] with
      precision 53 and maximal exponent 1024, with the Standard Library's
      executable operations ([SFmul], [SFadd], [SFcompare], ...).
      [parseFloat] and [parseInt] give the binary64 value nearest to the
      decimal text, ties to even, as the engines do (ECMAScript lets an
      implementation ignore the digits after the twentieth).
    - Regular expressions are terms of a small syntax interpreted by a
      backtracking matcher that lists the successful paths in the order in
      which the JavaScript matcher tries them.
    - Reading a property of [undefined] is the one way the function could
      throw; the embedding returns in an error type to keep that path visible.
    - [new Date().toLocaleDateString()] reads the wall clock; the rendered
      current date is an argument of the embedded function. *)

From Stdlib Require Import List Bool Arith ZArith NArith Lia.
From Stdlib Require Import Ascii String.
From Stdlib Require Import Floats.SpecFloat.
Import ListNotations.

(** ** Strings *)

Module Str.

Local Open Scope N_scope.

(** A UTF-16 code unit, and a string. *)
Abbreviation char := N.
Abbreviation str := (list N).

(** The code units of an ASCII literal. *)
Definition js (s : string) : str :=
  List.map N_of_ascii (list_ascii_of_string s).

Definition eqc (a b : char) : bool := N.eqb a b.

Definition between (lo hi c : char) : bool := (N.leb lo c && N.leb c hi)%bool.

(** [\d] *)
Definition isDigit (c : char) : bool := between 48 57 c.

(** LineTerminator: LF, CR, LS, PS. *)
Definition isLineTerminator (c : char) : bool :=
  (eqc c 10 || eqc c 13 || eqc c 8232 || eqc c 8233)%bool.

(** WhiteSpace or LineTerminator: the set that [trim] strips and that
    [\s] matches. *)
Definition isSpace (c : char) : bool :=
  (between 9 13 c || eqc c 32 || eqc c 160 || eqc c 5760
   || between 8192 8202 c || eqc c 8232 || eqc c 8233 || eqc c 8239
   || eqc c 8287 || eqc c 12288 || eqc c 65279)%bool.

(** [.] without the [s] flag *)
Definition isDot (c : char) : bool := negb (isLineTerminator c).

(** [[^0-9]] *)
Definition notDigit (c : char) : bool := negb (isDigit c).

(** [[-–]]: hyphen-minus or en dash (U+2013) *)
Definition isDash (c : char) : bool := (eqc c 45 || eqc c 8211)%bool.

(** [[\d.]] *)
Definition isDigitOrDot (c : char) : bool := (isDigit c || eqc c 46)%bool.

Fixpoint dropWhile (p : char -> bool) (s : str) : str :=
  match s with
  | [] => []
  | c :: s' => if p c then dropWhile p s' else s
  end.

Definition trimStart (s : str) : str := dropWhile isSpace s.
Definition trimEnd (s : str) : str := rev (dropWhile isSpace (rev s)).

(** [String.prototype.trim] *)
Definition trim (s : str) : str := trimEnd (trimStart s).

(** [String.prototype.split] with a separator of one code unit. *)
Fixpoint split (sep : char) (s : str) : list str :=
  match s with
  | [] => [[]]
  | c :: s' =>
      if eqc c sep then [] :: split sep s'
      else match split sep s' with
           | l :: ls => (c :: l) :: ls
           | [] => [[c]]
           end
  end.

Fixpoint startsWith (pre s : str) : bool :=
  match pre, s with
  | [], _ => true
  | _ :: _, [] => false
  | x :: pre', y :: s' => (eqc x y && startsWith pre' s')%bool
  end.

(** [String.prototype.includes] *)
Fixpoint includes (s sub : str) : bool :=
  (startsWith sub s ||
   match s with
   | [] => false
   | _ :: s' => includes s' sub
   end)%bool.

(** A string is truthy when it is not empty. *)
Definition truthy (s : str) : bool :=
  match s with [] => false | _ :: _ => true end.

End Str.
Import Str.

(** ** Regular expressions *)

Module Re.

(** The fragment of the regular-expression syntax that the source uses.
    Every quantified atom of the source is a single character class, so
    [Rep] repeats a class; the one optional group is [Opt]. *)
Inductive regex :=
| Bol                                   (* ^ *)
| Eol                                   (* $ (no m flag: end of input) *)
| Cls (p : char -> bool)                (* one character of a class *)
| Rep (greedy : bool) (lo : nat) (hi : option nat) (p : char -> bool)
                                        (* p{lo,hi}, p{lo,}, lazy or greedy *)
| Cat (r1 r2 : regex)                   (* r1 r2 *)
| Opt (r : regex)                       (* (?:r)? *)
| Grp (i : nat) (r : regex).            (* the i-th capturing group *)

(** The captures recorded so far, most recent first. *)
Abbreviation caps := (list (nat * list N)).

(** A point of the match: index in the input, input left, captures. *)
Record mstate := MState { idx : nat; rest : str; got : caps }.

(** Length of the longest prefix whose characters are all in [p]. *)
Fixpoint span (p : char -> bool) (s : str) : nat :=
  match s with
  | [] => 0
  | c :: s' => if p c then S (span p s') else 0
  end.

(** The numbers of repetitions that a quantified class can take at [s], in
    the order the backtracking matcher tries them: longest first when
    greedy, shortest first when lazy. *)
Definition counts (greedy : bool) (lo : nat) (hi : option nat)
           (p : char -> bool) (s : str) : list nat :=
  let most := match hi with
              | Some h => Nat.min h (span p s)
              | None => span p s
              end in
  let ks := seq lo (S most - lo) in
  if greedy then rev ks else ks.

Definition advance (st : mstate) (k : nat) : mstate :=
  MState (idx st + k) (skipn k (rest st)) (got st).

(** What was consumed between two points of the same input. *)
Definition consumed (before after : mstate) : str :=
  firstn (idx after - idx before) (rest before).

(** All the ways [r] matches from [st], in backtracking order. *)
Fixpoint run (r : regex) (st : mstate) : list mstate :=
  match r with
  | Bol => match idx st with 0 => [st] | S _ => [] end
  | Eol => match rest st with [] => [st] | _ :: _ => [] end
  | Cls p =>
      match rest st with
      | c :: _ => if p c then [advance st 1] else []
      | [] => []
      end
  | Rep g lo hi p => List.map (advance st) (counts g lo hi p (rest st))
  | Cat r1 r2 => flat_map (run r2) (run r1 st)
  | Opt r1 => run r1 st ++ [st]
  | Grp i r1 =>
      List.map (fun st' => MState (idx st') (rest st')
                                  ((i, consumed st st') :: got st'))
               (run r1 st)
  end.

(** The match that starts at index [i], if there is one. *)
Definition execAt (r : regex) (s : str) (i : nat) : option caps :=
  match run r (MState i (skipn i s) []) with
  | st :: _ => Some ((0, firstn (idx st - i) (skipn i s)) :: got st)
  | [] => None
  end.

Fixpoint firstSome {A B} (f : A -> option B) (l : list A) : option B :=
  match l with
  | [] => None
  | x :: l' => match f x with Some y => Some y | None => firstSome f l' end
  end.

(** [String.prototype.match] with a regular expression without the [g]
    flag: the leftmost match, [None] for [null]. *)
Definition matchRe (s : str) (r : regex) : option caps :=
  firstSome (execAt r s) (seq 0 (S (List.length s))).

(** Element [i] of the match array; [None] is [undefined]. *)
Fixpoint group (i : nat) (m : caps) : option str :=
  match m with
  | [] => None
  | (j, s) :: m' => if Nat.eqb i j then Some s else group i m'
  end.

(** A literal string. *)
Fixpoint Lit (s : str) : regex :=
  match s with
  | [] => Rep true 0 (Some 0) (fun _ => false)
  | [c] => Cls (eqc c)
  | c :: s' => Cat (Cls (eqc c)) (Lit s')
  end.

Declare Scope re_scope.
Delimit Scope re_scope with re.
Infix ";;" := Cat (at level 60, right associativity) : re_scope.

Abbreviation plus := (Rep true 1 None).                    (* p+ *)
Abbreviation star := (Rep true 0 None).                    (* p* *)
Abbreviation plusLazy := (Rep false 1 None).               (* p+? *)
Abbreviation upto lo hi := (Rep true lo (Some hi)).        (* p{lo,hi} *)

End Re.
Import Re.
Local Open Scope re_scope.

(** ** Numbers *)

Module Num.

Local Open Scope Z_scope.

(** The Number type: binary64. *)
Definition number := spec_float.
Definition prec : Z := 53.
Definition emax : Z := 1024.

Definition nan : number := S754_nan.

Definition mul : number -> number -> number := SFmul prec emax.
Definition add : number -> number -> number := SFadd prec emax.
Definition div : number -> number -> number := SFdiv prec emax.

(** [x >= y]: false as soon as one side is NaN. *)
Definition geb (x y : number) : bool := SFleb y x.
Definition ltb (x y : number) : bool := SFltb x y.

(** The Number value of an integer literal. *)
Definition num (z : Z) : number := binary_normalize prec emax z 0 false.

(** The Number value of [m * 10^e], signed: the nearest binary64 value,
    ties to even. For [e < 0] the quotient [m / 10^(-e)] is rounded once,
    by the division algorithm applied to the two integers. *)
Definition ofDecimal (neg : bool) (m : N) (e : Z) : number :=
  match m with
  | N0 => S754_zero neg
  | Npos p =>
      if 0 <=? e
      then binary_round prec emax neg (Z.to_pos (Zpos p * 10 ^ e)) 0
      else SFdiv prec emax (S754_finite neg p 0)
                           (S754_finite false (Z.to_pos (10 ^ (- e))) 0)
  end.

Fixpoint takeWhile (p : char -> bool) (s : str) : str :=
  match s with
  | [] => []
  | c :: s' => if p c then c :: takeWhile p s' else []
  end.

Definition digitVal (c : char) : N := (c - 48)%N.

(** The value of a run of decimal digits. *)
Definition digitsValue (ds : str) : N :=
  fold_left (fun a c => (10 * a + digitVal c)%N) ds 0%N.

(** An optional sign. *)
Definition sign (s : str) : bool * str :=
  match s with
  | c :: s' =>
      if eqc c 45%N then (true, s')
      else if eqc c 43%N then (false, s')
      else (false, s)
  | [] => (false, s)
  end.

(** ExponentPart at the head of [s]: [e] or [E], an optional sign and at
    least one digit; 0 when there is none. *)
Definition exponent (s : str) : Z :=
  match s with
  | c :: s1 =>
      if (eqc c 101%N || eqc c 69%N)%bool then
        let '(neg, s2) := sign s1 in
        match takeWhile isDigit s2 with
        | [] => 0
        | ds => if neg then - Z.of_N (digitsValue ds)
                else Z.of_N (digitsValue ds)
        end
      else 0
  | [] => 0
  end.

(** The global [parseFloat]: leading white space is skipped, then the
    longest prefix that is a StrDecimalLiteral is read; NaN when there is
    none. *)
Definition parseFloat (s : str) : number :=
  let '(neg, s1) := sign (trimStart s) in
  if startsWith (js "Infinity") s1 then S754_infinity neg
  else
    let ip := takeWhile isDigit s1 in
    let s2 := dropWhile isDigit s1 in
    let dotted := match s2 with c :: _ => eqc c 46%N | [] => false end in
    if dotted then
      let fp := takeWhile isDigit (tl s2) in
      let s3 := dropWhile isDigit (tl s2) in
      match ip ++ fp with
      | [] => nan
      | ds => ofDecimal neg (digitsValue ds)
                        (exponent s3 - Z.of_nat (List.length fp))
      end
    else
      match ip with
      | [] => nan
      | ds => ofDecimal neg (digitsValue ds) (exponent s2)
      end.

Definition isHexDigit (c : char) : bool :=
  (isDigit c || between 65%N 70%N c || between 97%N 102%N c)%bool.

Definition hexVal (c : char) : N :=
  if isDigit c then (c - 48)%N
  else if between 65%N 70%N c then (c - 55)%N
  else (c - 87)%N.

Definition hexValue (ds : str) : N :=
  fold_left (fun a c => (16 * a + hexVal c)%N) ds 0%N.

Definition hexPrefix (s : str) : bool :=
  (startsWith (js "0x") s || startsWith (js "0X") s)%bool.

(** The global [parseInt] without a radix: leading white space and a sign
    are skipped, [0x] selects base 16, then the longest run of digits is
    read; NaN when it is empty. *)
Definition parseInt (s : str) : number :=
  let '(neg, s1) := sign (trimStart s) in
  if hexPrefix s1 then
    match takeWhile isHexDigit (skipn 2 s1) with
    | [] => nan
    | ds => ofDecimal neg (hexValue ds) 0
    end
  else
    match takeWhile isDigit s1 with
    | [] => nan
    | ds => ofDecimal neg (digitsValue ds) 0
    end.

End Num.
Import Num.

(** ** Exceptions *)

Inductive error := TypeError.

Inductive result (A : Type) :=
| Ok (a : A)
| Throw (e : error).

Arguments Ok {A} a.
Arguments Throw {A} e.

Definition bind {A B} (x : result A) (f : A -> result B) : result B :=
  match x with
  | Ok a => f a
  | Throw e => Throw e
  end.

Notation "x <- e1 ;;; e2" := (bind e1 (fun x => e2))
  (at level 61, e1 at next level, right associativity).

(** A loop over a list whose body may throw. *)
Fixpoint forEach {S A} (body : S -> A -> result S) (l : list A) (s : S)
  : result S :=
  match l with
  | [] => Ok s
  | x :: l' => s' <- body s x ;;; forEach body l' s'
  end.

(** [x.trim()] where [x] is an element of a match array: a TypeError when
    the element is [undefined]. *)
Definition trimOf (x : option str) : result str :=
  match x with
  | Some s => Ok (trim s)
  | None => Throw TypeError
  end.

(** ToString of an argument that may be [undefined]. *)
Definition toStr (x : option str) : str :=
  match x with
  | Some s => s
  | None => js "undefined"
  end.

(** ** The parser of page.js *)

Definition ch (a : ascii) : char := N_of_ascii a.

(** [/^([^0-9]+?)(?:\s+(\d{1,2}\/\d{1,2}\/\d{2,4}))?$/] (line 79) *)
Definition headerRe : regex :=
  Bol ;; Grp 1 (plusLazy notDigit) ;;
  Opt (plus isSpace ;;
       Grp 2 (upto 1 2 isDigit ;; Cls (eqc (ch "/")) ;;
              upto 1 2 isDigit ;; Cls (eqc (ch "/")) ;;
              upto 2 4 isDigit)) ;;
  Eol.

(** [/^\d+\./] (line 88) *)
Definition markerRe : regex :=
  Bol ;; plus isDigit ;; Cls (eqc (ch ".")).

(** [/^\d+\.\s*(.+?)\s*[-–]\s*(.+)$/] (line 89) *)
Definition activityRe : regex :=
  Bol ;; plus isDigit ;; Cls (eqc (ch ".")) ;; star isSpace ;;
  Grp 1 (plusLazy isDot) ;; star isSpace ;; Cls isDash ;; star isSpace ;;
  Grp 2 (plus isDot) ;; Eol.

(** [/^\d*\.?\d+$/] (line 97) *)
Definition numericRe : regex :=
  Bol ;; star isDigit ;; upto 0 1 (eqc (ch ".")) ;; plus isDigit ;; Eol.

(** [/(\d+)\s*min/] (line 101) *)
Definition minRe : regex :=
  Grp 1 (plus isDigit) ;; star isSpace ;; Lit (js "min").

(** [/([\d.]+)\s*hrs?/] (line 104) *)
Definition hrRe : regex :=
  Grp 1 (plus isDigitOrDot) ;; star isSpace ;; Lit (js "hr") ;;
  upto 0 1 (eqc (ch "s")).

Definition isSome {A} (x : option A) : bool :=
  match x with Some _ => true | None => false end.

Record Activity := mkActivity {
  description : str;
  timeStr : str;
  minutes : number
}.

(** The value returned by [parseAndStructure]. [totalHours] is the number
    [totalMinutes / 60] that the source then formats with [toFixed(2)]; the
    formatting, which cannot throw with 2 digits, is left out. *)
Record Note := mkNote {
  clientName : str;
  date : str;
  activities : list Activity;
  totalHours : number;
  totalMinutes : number
}.

(** The time formats (lines 94 to 109): the value of [minutes] after the
    conditional, as a function of [timeStr]. *)
Definition resolveMinutes (timeStr : str) : number :=
  if (isSome (matchRe timeStr numericRe)
      && negb (includes timeStr (js "min")))%bool then
    let hours := parseFloat timeStr in
    if geb hours (num 10) then hours else mul hours (num 60)
  else if includes timeStr (js "min") then
    match matchRe timeStr minRe with
    | Some minMatch => parseInt (toStr (group 1 minMatch))
    | None => num 0
    end
  else if includes timeStr (js "hr") then
    match matchRe timeStr hrRe with
    | Some hrMatch => mul (parseFloat (toStr (group 1 hrMatch))) (num 60)
    | None => num 0
    end
  else
    let n := parseFloat timeStr in
    if geb n (num 10) then n else mul n (num 60).

(** The body of the [forEach] callback (lines 87 to 120) on the two
    variables it updates, [activities] and [totalMinutes]. *)
Definition parseLine (acc : list Activity * number) (line : str)
  : result (list Activity * number) :=
  let '(activities, totalMinutes) := acc in
  if isSome (matchRe line markerRe) then
    match matchRe line activityRe with
    | Some activityMatch =>
        activity <- trimOf (group 1 activityMatch) ;;;
        timeStr <- trimOf (group 2 activityMatch) ;;;
        let minutes := resolveMinutes timeStr in
        Ok (activities ++ [mkActivity activity timeStr minutes],
            add totalMinutes minutes)
    | None => Ok acc
    end
  else Ok acc.

(** [text.split('\n').filter(line => line.trim())] *)
Definition linesOf (text : str) : list str :=
  filter (fun line => truthy (trim line)) (split 10%N text).

(** [parseAndStructure] (lines 74 to 129). [today] stands for
    [new Date().toLocaleDateString()]. *)
Definition parseAndStructure (today : str) (text : str) : result Note :=
  let lines := linesOf text in
  let firstLine := match lines with
                   | l :: _ => if truthy l then l else []
                   | [] => []
                   end in
  let clientMatch := matchRe firstLine headerRe in
  clientName <- match clientMatch with
                | Some m => trimOf (group 1 m)
                | None => Ok (js "Client")
                end ;;;
  let date := match clientMatch with
              | Some m => match group 2 m with
                          | Some d => if truthy d then d else today
                          | None => today
                          end
              | None => today
              end in
  acc <- forEach parseLine (tl lines) ([], num 0) ;;;
  let '(activities, totalMinutes) := acc in
  Ok (mkNote clientName date activities
             (div totalMinutes (num 60)) totalMinutes).

(** ** The file name of the report *)

(** The replacement text of the two calls of [replace] on line 192. It has
    no [$], so [replace] puts it in as it is at every match. *)
Definition underscore : str := js "_".

(** [s.replace(r, '_')] for an expression [r] that has the [g] flag, as in
    both calls on line 192: the matches are looked for from left to right,
    each from the end of the one before, and each is replaced by ['_']; a
    character that starts no match is copied; after an empty match the next
    character is copied. [i] is the index of the head of [s] in the whole
    text and [skip] the number of characters of [s] that the last match still
    covers. *)
Fixpoint replaceFrom (r : regex) (s : str) (i skip : nat) : str :=
  match skip with
  | S skip' =>
      match s with
      | [] => []
      | _ :: s' => replaceFrom r s' (S i) skip'
      end
  | 0 =>
      match run r (MState i s []) with
      | st :: _ =>
          underscore ++
          match s with
          | [] => []
          | c :: s' =>
              match idx st - i with
              | 0 => c :: replaceFrom r s' (S i) 0
              | S k => replaceFrom r s' (S i) k
              end
          end
      | [] =>
          match s with
          | [] => []
          | c :: s' => c :: replaceFrom r s' (S i) 0
          end
      end
  end.

Definition replaceG (s : str) (r : regex) : str := replaceFrom r s 0 0.

(** [/\s+/g] and [/\//g] (line 192) *)
Definition spacesRe : regex := plus isSpace.
Definition slashRe : regex := Cls (eqc (ch "/")).

(** The name under which [generatePDF] saves the report, the argument of
    [doc.save] (line 192). *)
Definition pdfFileName (structuredData : Note) : str :=
  replaceG (clientName structuredData) spacesRe ++ js "_" ++
  replaceG (date structuredData) slashRe ++ js ".pdf".

(** ** Notions used by the statements *)

(** Every class of [r] lies within [P]. *)
Fixpoint within (P : char -> bool) (r : regex) : Prop :=
  match r with
  | Bol | Eol => True
  | Cls p | Rep _ _ _ p => forall c, p c = true -> P c = true
  | Cat r1 r2 => within P r1 /\ within P r2
  | Opt r1 | Grp _ r1 => within P r1
  end.

Definition anyChar (c : char) : bool := true.

(** The groups an expression sets on every path. *)
Fixpoint sets (i : nat) (r : regex) : bool :=
  match r with
  | Cat r1 r2 => sets i r1 || sets i r2
  | Grp j r1 => Nat.eqb i j || sets i r1
  | _ => false
  end.

(** The state at the start of the input, and the match array of a path. *)
Definition start (s : str) : mstate := MState 0 s [].

Definition matchOf (s : str) (st : mstate) : caps :=
  (0, firstn (idx st) s) :: got st.

(** The sum of the minutes of a list of activities, from 0, in order. *)
Definition sumMinutes (l : list Activity) : number :=
  fold_left add (List.map minutes l) (num 0).

(** The header line of a text and the date token it carries, if any. *)
Definition firstLineOf (text : str) : str :=
  match linesOf text with
  | l :: _ => if truthy l then l else []
  | [] => []
  end.

Definition headerDate (text : str) : option str :=
  match matchRe (firstLineOf text) headerRe with
  | Some m => group 2 m
  | None => None
  end.

Definition nl : str := [10%N].

(** Zero or above: [+0], a positive finite value or [+Infinity]. *)
Definition posOrZero (x : number) : bool :=
  match x with
  | S754_zero false | S754_finite false _ _ | S754_infinity false => true
  | _ => false
  end.

(** Every group [i] of [r] captures a text with property [Q]. *)
Fixpoint grpBody (i : nat) (Q : str -> Prop) (r : regex) : Prop :=
  match r with
  | Cat r1 r2 => grpBody i Q r1 /\ grpBody i Q r2
  | Opt r1 => grpBody i Q r1
  | Grp j r1 =>
      if Nat.eqb i j
      then forall st st1, In st1 (run r1 st) -> Q (consumed st st1)
      else grpBody i Q r1
  | _ => True
  end.

(** The expression ends with [$]. *)
Fixpoint endsEol (r : regex) : bool :=
  match r with
  | Eol => true
  | Cat _ r2 => endsEol r2
  | _ => false
  end.

(** Each activity carries the trimmed token and the minutes resolved from
    it. *)
Definition resolved (a : Activity) : Prop :=
  minutes a = resolveMinutes (timeStr a) /\ trim (timeStr a) = timeStr a.

(** The leading integer run of a token. *)
Definition leadingDigits (t : str) : str := takeWhile isDigit t.

(** [[^-–]] *)
Definition notDash (c : char) : bool := negb (isDash c).

(** The date token of the header pattern,
    [\d{1,2}\/\d{1,2}\/\d{2,4}] (line 79). *)
Definition dateRe : regex :=
  upto 1 2 isDigit ;; Cls (eqc (ch "/")) ;;
  upto 1 2 isDigit ;; Cls (eqc (ch "/")) ;;
  upto 2 4 isDigit.

(** The characters of a date token: digits and the slash. *)
Definition isDateChar (c : char) : bool := (isDigit c || eqc (ch "/") c)%bool.

(** [[^\s]] and [[^/]] *)
Definition notSpace (c : char) : bool := negb (isSpace c).
Definition notSlash (c : char) : bool := negb (eqc (ch "/") c).

(** A text with every run of white space turned into one underscore;
    [inRun] tells that the character before was white space. *)
Fixpoint underscoreRuns (inRun : bool) (s : str) : str :=
  match s with
  | [] => []
  | c :: s' =>
      if isSpace c
      then (if inRun then [] else js "_") ++ underscoreRuns true s'
      else c :: underscoreRuns false s'
  end.

(** A slash turned into an underscore, any other character kept. *)
Definition slashToUnderscore (c : char) : char :=
  if eqc (ch "/") c then ch "_" else c.

(** * Properties *)

(** ** Lists *)

Section ListFacts.
Context {A B : Type}.

Lemma flat_map_all_nil (f : A -> list B) (l : list A) :
  (forall y, In y l -> f y = []) -> flat_map f l = [].
Proof.
  induction l as [|x l IH]; intros H; simpl; [reflexivity|].
  rewrite (H x (or_introl eq_refl)). simpl.
  apply IH. intros y Hy. apply H. right. exact Hy.
Qed.

Lemma flat_map_skip (f : A -> list B) (l1 : list A) (x : A) (l2 : list A) :
  (forall y, In y l1 -> f y = []) ->
  flat_map f (l1 ++ x :: l2) = f x ++ flat_map f l2.
Proof.
  intros H. rewrite flat_map_app. rewrite (flat_map_all_nil f l1 H).
  reflexivity.
Qed.

Lemma hd_error_app_some (l1 l2 : list B) (z : B) :
  hd_error l1 = Some z -> hd_error (l1 ++ l2) = Some z.
Proof. destruct l1; simpl; [discriminate | tauto]. Qed.

Lemma hd_flat_map_skip (f : A -> list B) l1 x l2 z :
  (forall y, In y l1 -> f y = []) ->
  hd_error (f x) = Some z ->
  hd_error (flat_map f (l1 ++ x :: l2)) = Some z.
Proof.
  intros H Hx. rewrite (flat_map_skip f l1 x l2 H).
  apply hd_error_app_some. exact Hx.
Qed.

Lemma hd_flat_map_head (f : A -> list B) x l z :
  hd_error (f x) = Some z -> hd_error (flat_map f (x :: l)) = Some z.
Proof. intros Hx. simpl. apply hd_error_app_some. exact Hx. Qed.

End ListFacts.

Lemma rev_seq_top (lo n : nat) :
  lo <= n -> rev (seq lo (S n - lo)) = n :: rev (seq lo (n - lo)).
Proof.
  intros H. replace (S n - lo) with ((n - lo) + 1) by lia.
  rewrite seq_app. rewrite rev_app_distr. simpl.
  replace (lo + (n - lo)) with n by lia. reflexivity.
Qed.

Lemma seq_split_at (lo k n : nat) :
  lo <= k -> k <= n ->
  seq lo (S n - lo) = seq lo (k - lo) ++ k :: seq (S k) (n - k).
Proof.
  intros H1 H2. replace (S n - lo) with ((k - lo) + S (n - k)) by lia.
  rewrite seq_app. simpl. replace (lo + (k - lo)) with k by lia.
  reflexivity.
Qed.

Lemma skipn_skipn_add {A} (a b : nat) (l : list A) :
  skipn a (skipn b l) = skipn (b + a) l.
Proof.
  revert l. induction b as [|b IH]; intros l; simpl; [reflexivity|].
  destruct l as [|x l]; [now rewrite skipn_nil | apply IH].
Qed.

(** ** Character classes and spans *)

Lemma span_le_length p s : span p s <= List.length s.
Proof.
  induction s as [|c s IH]; simpl; [lia|]. destruct (p c); simpl; lia.
Qed.

Lemma span_app_all p a b :
  forallb p a = true -> span p (a ++ b) = List.length a + span p b.
Proof.
  induction a as [|c a IH]; simpl; intros H; [reflexivity|].
  apply andb_prop in H. destruct H as [Hc Ha]. rewrite Hc.
  rewrite (IH Ha). reflexivity.
Qed.

Lemma span_all p s : forallb p s = true -> span p s = List.length s.
Proof.
  intros H. rewrite <- (app_nil_r s) at 1. rewrite (span_app_all _ _ _ H).
  simpl. lia.
Qed.

Lemma span_stop p c s : p c = false -> span p (c :: s) = 0.
Proof. intros H. simpl. rewrite H. reflexivity. Qed.

Lemma span_before p s k c :
  k < span p s -> nth_error s k = Some c -> p c = true.
Proof.
  revert k. induction s as [|x s IH]; intros k Hk Hn; simpl in *; [lia|].
  destruct (p x) eqn:Hx; [|lia].
  destruct k as [|k]; simpl in Hn.
  - injection Hn as <-. exact Hx.
  - apply (IH k); [lia | exact Hn].
Qed.

Lemma span_firstn p s k :
  k <= span p s -> forallb p (firstn k s) = true.
Proof.
  revert k. induction s as [|x s IH]; intros k Hk; simpl in *.
  - now rewrite firstn_nil.
  - destruct k as [|k]; [reflexivity|]. simpl.
    destruct (p x) eqn:Hx; [|lia]. simpl. apply IH. lia.
Qed.

(** ** The quantifier *)

Lemma counts_greedy lo p s :
  counts true lo None p s = rev (seq lo (S (span p s) - lo)).
Proof. reflexivity. Qed.

Lemma counts_lazy lo p s :
  counts false lo None p s = seq lo (S (span p s) - lo).
Proof. reflexivity. Qed.

Lemma counts_bounds g lo hi p s k :
  In k (counts g lo hi p s) -> lo <= k /\ k <= span p s.
Proof.
  unfold counts. intros H.
  assert (Hs : In k (seq lo (S (match hi with
                                | Some h => Nat.min h (span p s)
                                | None => span p s
                                end) - lo))).
  { destruct g; [apply in_rev in H|]; exact H. }
  apply in_seq in Hs. destruct hi as [h|]; lia.
Qed.

Lemma counts_greedy_head lo p s :
  lo <= span p s ->
  counts true lo None p s = span p s :: rev (seq lo (span p s - lo)).
Proof. intros H. rewrite counts_greedy. apply rev_seq_top. exact H. Qed.

(** ** The matcher *)

Lemma run_Cat r1 r2 st : run (r1 ;; r2) st = flat_map (run r2) (run r1 st).
Proof. reflexivity. Qed.

Lemma run_Grp i r st :
  run (Grp i r) st =
  List.map (fun st' => MState (idx st') (rest st')
                              ((i, consumed st st') :: got st'))
           (run r st).
Proof. reflexivity. Qed.

Lemma run_Rep g lo hi p st :
  run (Rep g lo hi p) st = List.map (advance st) (counts g lo hi p (rest st)).
Proof. reflexivity. Qed.

Lemma run_Cls_hit p st c s :
  rest st = c :: s -> p c = true -> run (Cls p) st = [advance st 1].
Proof. intros E H. simpl. rewrite E, H. reflexivity. Qed.

Lemma run_Cls_miss p st :
  match rest st with c :: _ => p c = false | [] => True end ->
  run (Cls p) st = [].
Proof.
  simpl. destruct (rest st) as [|c s]; [reflexivity|]. intros ->. reflexivity.
Qed.

Lemma firstn_add_skipn {A} (a b : nat) (l : list A) :
  firstn (a + b) l = firstn a l ++ firstn b (skipn a l).
Proof.
  revert l. induction a as [|a IH]; intros l; simpl; [reflexivity|].
  destruct l as [|x l]; simpl.
  - now rewrite firstn_nil.
  - now rewrite IH.
Qed.

Lemma forallb_weaken (p q : char -> bool) (s : str) :
  (forall c, p c = true -> q c = true) ->
  forallb p s = true -> forallb q s = true.
Proof.
  intros Hpq. induction s as [|c s IH]; simpl; [reflexivity|].
  intros H. apply andb_prop in H. destruct H as [Hc Hs].
  rewrite (Hpq c Hc), (IH Hs). reflexivity.
Qed.


Lemma within_any r : within anyChar r.
Proof. induction r; simpl; auto. Qed.

(** A successful path consumes a prefix of the input left, made of
    characters of the classes of the expression. *)
Lemma run_within P r :
  within P r ->
  forall st st', In st' (run r st) ->
  exists k, idx st' = idx st + k /\ rest st' = skipn k (rest st) /\
            k <= List.length (rest st) /\
            forallb P (firstn k (rest st)) = true.
Proof.
  induction r as [| |p|g lo hi p|r1 IH1 r2 IH2|r1 IH1|i r1 IH1];
    simpl; intros W st st' H.
  - destruct (idx st) eqn:E; [|contradiction].
    destruct H as [<-|[]]. exists 0. simpl. repeat split; lia.
  - destruct (rest st) eqn:E; [|contradiction].
    destruct H as [<-|[]]. exists 0. rewrite E. simpl. repeat split; lia.
  - destruct (rest st) as [|c s] eqn:E; [contradiction|].
    destruct (p c) eqn:Hc; [|contradiction].
    destruct H as [<-|[]]. exists 1. simpl. rewrite E. simpl.
    rewrite (W c Hc). repeat split; lia.
  - apply in_map_iff in H. destruct H as [k [<- Hk]].
    apply counts_bounds in Hk. destruct Hk as [_ Hk].
    exists k. simpl. repeat split.
    + pose proof (span_le_length p (rest st)). lia.
    + apply (forallb_weaken p P _ W). apply span_firstn. exact Hk.
  - destruct W as [W1 W2]. apply in_flat_map in H.
    destruct H as [st1 [H1 H2]].
    destruct (IH1 W1 _ _ H1) as [k1 [I1 [R1 [L1 F1]]]].
    destruct (IH2 W2 _ _ H2) as [k2 [I2 [R2 [L2 F2]]]].
    exists (k1 + k2). rewrite R1 in R2, L2, F2.
    rewrite length_skipn in L2. rewrite skipn_skipn_add in R2.
    repeat split; [lia | exact R2 | lia |].
    rewrite firstn_add_skipn, forallb_app, F1, F2. reflexivity.
  - apply in_app_or in H. destruct H as [H|[<-|[]]].
    + exact (IH1 W _ _ H).
    + exists 0. simpl. repeat split; lia.
  - apply in_map_iff in H. destruct H as [st1 [<- H1]]. simpl.
    exact (IH1 W _ _ H1).
Qed.

Lemma run_got_mono r i :
  forall st st', In st' (run r st) ->
  isSome (group i (got st)) = true -> isSome (group i (got st')) = true.
Proof.
  induction r as [| |p|g lo hi p|r1 IH1 r2 IH2|r1 IH1|j r1 IH1];
    simpl; intros st st' H G.
  - destruct (idx st); [|contradiction]. destruct H as [<-|[]]. exact G.
  - destruct (rest st); [|contradiction]. destruct H as [<-|[]]. exact G.
  - destruct (rest st) as [|c s]; [contradiction|].
    destruct (p c); [|contradiction]. destruct H as [<-|[]]. exact G.
  - apply in_map_iff in H. destruct H as [k [<- _]]. exact G.
  - apply in_flat_map in H. destruct H as [st1 [H1 H2]].
    exact (IH2 _ _ H2 (IH1 _ _ H1 G)).
  - apply in_app_or in H. destruct H as [H|[<-|[]]];
      [exact (IH1 _ _ H G) | exact G].
  - apply in_map_iff in H. destruct H as [st1 [<- H1]]. simpl.
    destruct (Nat.eqb i j); [reflexivity | exact (IH1 _ _ H1 G)].
Qed.

Lemma run_sets r i :
  sets i r = true ->
  forall st st', In st' (run r st) -> isSome (group i (got st')) = true.
Proof.
  induction r as [| |p|g lo hi p|r1 IH1 r2 IH2|r1 IH1|j r1 IH1];
    simpl; intros S st st' H; try discriminate.
  - apply in_flat_map in H. destruct H as [st1 [H1 H2]].
    apply orb_prop in S. destruct S as [S|S].
    + exact (run_got_mono r2 i _ _ H2 (IH1 S _ _ H1)).
    + exact (IH2 S _ _ H2).
  - apply in_map_iff in H. destruct H as [st1 [<- H1]]. simpl.
    destruct (Nat.eqb i j) eqn:E; [reflexivity|].
    simpl in S. exact (IH1 S _ _ H1).
Qed.

(** ** [match] *)


Lemma firstSome_none {A B} (f : A -> option B) l :
  (forall x, In x l -> f x = None) -> firstSome f l = None.
Proof.
  induction l as [|x l IH]; intros H; simpl; [reflexivity|].
  rewrite (H x (or_introl eq_refl)). apply IH. intros y Hy. apply H.
  right. exact Hy.
Qed.

Lemma firstSome_in {A B} (f : A -> option B) l y :
  firstSome f l = Some y -> exists x, In x l /\ f x = Some y.
Proof.
  induction l as [|x l IH]; simpl; [discriminate|].
  destruct (f x) as [z|] eqn:E.
  - intros H. injection H as <-. exists x. auto.
  - intros H. destruct (IH H) as [x' [I F]]. exists x'. auto.
Qed.

Lemma execAt_0 r s :
  execAt r s 0 = option_map (matchOf s) (hd_error (run r (start s))).
Proof.
  unfold execAt, start, matchOf. simpl.
  destruct (run r (MState 0 s [])) as [|st l]; simpl; [reflexivity|].
  rewrite Nat.sub_0_r. reflexivity.
Qed.

(** An expression that starts with [^] matches at index 0 or nowhere. *)
Lemma matchRe_anchored r s :
  matchRe s (Bol ;; r) = option_map (matchOf s) (hd_error (run r (start s))).
Proof.
  unfold matchRe. simpl seq. simpl firstSome.
  assert (E : execAt (Bol ;; r) s 0 = execAt r s 0).
  { unfold execAt. simpl. rewrite app_nil_r. reflexivity. }
  rewrite E, execAt_0.
  destruct (hd_error (run r (start s))); simpl; [reflexivity|].
  apply firstSome_none. intros i Hi. apply in_seq in Hi.
  unfold execAt. simpl. destruct i; [lia | reflexivity].
Qed.

(** The leftmost match is the one at index 0 when there is one. *)
Lemma matchRe_at_0 r s st :
  hd_error (run r (start s)) = Some st -> matchRe s r = Some (matchOf s st).
Proof.
  intros H. unfold matchRe. simpl seq. simpl firstSome.
  rewrite execAt_0, H. reflexivity.
Qed.

(** A match comes from a path of the matcher. *)
Lemma matchRe_path r s m :
  matchRe s r = Some m ->
  exists i st, In st (run r (MState i (skipn i s) [])) /\
               forall k, k <> 0 -> group k m = group k (got st).
Proof.
  intros H. apply firstSome_in in H. destruct H as [i [_ H]].
  unfold execAt in H.
  destruct (run r (MState i (skipn i s) [])) as [|st l] eqn:E;
    [discriminate|].
  injection H as <-. exists i, st. split.
  - rewrite E. left. reflexivity.
  - intros k Hk. simpl. destruct k; [contradiction | reflexivity].
Qed.

Lemma matchRe_sets r s m i :
  i <> 0 -> sets i r = true -> matchRe s r = Some m ->
  isSome (group i m) = true.
Proof.
  intros Hi S H. destruct (matchRe_path r s m H) as [j [st [I G]]].
  rewrite (G i Hi). exact (run_sets r i S _ _ I).
Qed.

(** ** The loop over the lines *)

Lemma forEach_app {S A} (body : S -> A -> result S) l1 l2 s :
  forEach body (l1 ++ l2) s = (s' <- forEach body l1 s ;;; forEach body l2 s').
Proof.
  revert s. induction l1 as [|x l1 IH]; intros s; simpl; [reflexivity|].
  destruct (body s x) as [s'|e]; simpl; [apply IH | reflexivity].
Qed.

Lemma forEach_total {S A} (body : S -> A -> result S) :
  (forall s x, exists s', body s x = Ok s') ->
  forall l s, exists s', forEach body l s = Ok s'.
Proof.
  intros H l. induction l as [|x l IH]; intros s; simpl.
  - exists s. reflexivity.
  - destruct (H s x) as [s1 E]. rewrite E. simpl. apply IH.
Qed.

Lemma forEach_invariant {S A} (body : S -> A -> result S) (I : S -> Prop) :
  (forall s x s', I s -> body s x = Ok s' -> I s') ->
  forall l s s', I s -> forEach body l s = Ok s' -> I s'.
Proof.
  intros H l. induction l as [|x l IH]; intros s s' Hs E; simpl in E.
  - injection E as <-. exact Hs.
  - destruct (body s x) as [s1|e] eqn:B; simpl in E; [|discriminate].
    exact (IH s1 s' (H s x s1 Hs B) E).
Qed.

(** What one line does to the loop state: nothing, or one more activity. *)
Lemma parseLine_cases acc line :
  parseLine acc line = Ok acc \/
  exists g1 g2 m,
    matchRe line activityRe = Some m /\
    group 1 m = Some g1 /\ group 2 m = Some g2 /\
    parseLine acc line =
    Ok (fst acc ++ [mkActivity (trim g1) (trim g2)
                               (resolveMinutes (trim g2))],
        add (snd acc) (resolveMinutes (trim g2))).
Proof.
  destruct acc as [acts total]. unfold parseLine.
  destruct (isSome (matchRe line markerRe)); [|left; reflexivity].
  destruct (matchRe line activityRe) as [m|] eqn:E; [|left; reflexivity].
  right.
  pose proof (matchRe_sets activityRe line m 1 ltac:(discriminate)
                eq_refl E) as G1.
  pose proof (matchRe_sets activityRe line m 2 ltac:(discriminate)
                eq_refl E) as G2.
  destruct (group 1 m) as [g1|] eqn:E1; [|discriminate].
  destruct (group 2 m) as [g2|] eqn:E2; [|discriminate].
  exists g1, g2, m. repeat split; assumption || reflexivity.
Qed.

Lemma parseLine_total acc line : exists acc', parseLine acc line = Ok acc'.
Proof.
  destruct (parseLine_cases acc line) as [E|[g1 [g2 [m [_ [_ [_ E]]]]]]];
    rewrite E; eexists; reflexivity.
Qed.

Lemma header_name_total (s : str) :
  exists name,
    match matchRe s headerRe with
    | Some m => trimOf (group 1 m)
    | None => Ok (js "Client")
    end = Ok name.
Proof.
  destruct (matchRe s headerRe) as [m|] eqn:E.
  - pose proof (matchRe_sets headerRe s m 1 ltac:(discriminate)
                  eq_refl E) as G.
    destruct (group 1 m) as [g|]; [|discriminate].
    eexists. reflexivity.
  - eexists. reflexivity.
Qed.

(** The shape of every result of the parser. *)
Lemma parseAndStructure_ok today text :
  exists name acts total,
    match matchRe (firstLineOf text) headerRe with
    | Some m => trimOf (group 1 m)
    | None => Ok (js "Client")
    end = Ok name /\
    forEach parseLine (tl (linesOf text)) ([], num 0) = Ok (acts, total) /\
    parseAndStructure today text =
    Ok (mkNote name
               match headerDate text with
               | Some d => if truthy d then d else today
               | None => today
               end
               acts (div total (num 60)) total).
Proof.
  destruct (header_name_total (firstLineOf text)) as [name Hn].
  destruct (forEach_total parseLine parseLine_total (tl (linesOf text))
              ([], num 0)) as [[acts total] Hl].
  exists name, acts, total. split; [exact Hn|]. split; [exact Hl|].
  change (parseAndStructure today text) with
    (clientName <- match matchRe (firstLineOf text) headerRe with
                   | Some m => trimOf (group 1 m)
                   | None => Ok (js "Client")
                   end ;;;
     acc <- forEach parseLine (tl (linesOf text)) ([], num 0) ;;;
     let '(activities, totalMinutes) := acc in
     Ok (mkNote clientName
                match matchRe (firstLineOf text) headerRe with
                | Some m => match group 2 m with
                            | Some d => if truthy d then d else today
                            | None => today
                            end
                | None => today
                end
                activities (div totalMinutes (num 60)) totalMinutes)).
  rewrite Hn. cbn [bind]. rewrite Hl. cbn [bind]. unfold headerDate.
  destruct (matchRe (firstLineOf text) headerRe); reflexivity.
Qed.

(** C4. [parseAndStructure] is total: on every input string, the empty
    string and malformed text included, it returns a note and does not throw.
    The only operations of the function that could throw are the reads of
    [clientMatch[1]], [activityMatch[1]] and [activityMatch[2]], and these
    groups are set on every path of their expressions. *)
Theorem parseAndStructure_total :
  forall today text : str,
    exists note : Note, parseAndStructure today text = Ok note.
Proof.
  intros today text.
  destruct (parseAndStructure_ok today text) as [n [a [t [_ [_ E]]]]].
  rewrite E. eexists. reflexivity.
Qed.

(** The running total is the sum of the minutes pushed so far. *)
Lemma parseLine_sum acc line acc' :
  snd acc = fold_left add (List.map minutes (fst acc)) (num 0) ->
  parseLine acc line = Ok acc' ->
  snd acc' = fold_left add (List.map minutes (fst acc')) (num 0).
Proof.
  intros I E.
  destruct (parseLine_cases acc line) as [E'|[g1 [g2 [m [_ [_ [_ E']]]]]]];
    rewrite E' in E; injection E as <-; [exact I|].
  cbn [fst snd]. rewrite map_app, fold_left_app.
  cbn [List.map fold_left minutes]. rewrite <- I. reflexivity.
Qed.

(** C7. For every input, [totalMinutes] of the returned note is the sum of
    the [minutes] of its activities, added from 0 in the order of the list. *)
Theorem totalMinutes_is_sum :
  forall today text : str,
    exists note : Note,
      parseAndStructure today text = Ok note /\
      totalMinutes note = sumMinutes (activities note).
Proof.
  intros today text.
  destruct (parseAndStructure_ok today text) as [n [a [t [_ [L E]]]]].
  rewrite E. eexists. split; [reflexivity|]. simpl.
  refine (forEach_invariant parseLine
            (fun acc => snd acc = fold_left add (List.map minutes (fst acc))
                                            (num 0))
            _ (tl (linesOf text)) ([], num 0) (a, t) eq_refl L).
  intros s x s'. apply parseLine_sum.
Qed.

(** ** The numbered marker *)

Lemma marker_needs_digit (c : char) (s : str) :
  isDigit c = false -> matchRe (c :: s) markerRe = None.
Proof.
  intros H. unfold markerRe. rewrite matchRe_anchored.
  rewrite run_Cat, run_Rep. unfold start. cbn [rest].
  rewrite counts_greedy, (span_stop _ c s H).
  reflexivity.
Qed.

Lemma parseLine_skips (c : char) (s : str) acc :
  isDigit c = false -> parseLine acc (c :: s) = Ok acc.
Proof.
  intros H. unfold parseLine. rewrite (marker_needs_digit c s H).
  destruct acc. reflexivity.
Qed.

(** C10. A line whose numbered marker is preceded by a character, that is, a
    line whose first character is not a digit (white space included), fails
    the marker test [/^\d+\./], which is anchored to the start of the
    untrimmed line: the callback leaves the loop state as it is, and the
    loop over the lines after the header gives what it gives without the
    line. *)
Theorem unanchored_marker_dropped :
  forall (c : char) (s : str),
    isDigit c = false ->
    matchRe (c :: s) markerRe = None /\
    (forall acc, parseLine acc (c :: s) = Ok acc) /\
    (forall before after acc,
        forEach parseLine (before ++ (c :: s) :: after) acc =
        forEach parseLine (before ++ after) acc).
Proof.
  intros c s H. split; [exact (marker_needs_digit c s H)|].
  split; [intros acc; exact (parseLine_skips c s acc H)|].
  intros before after acc. rewrite !forEach_app.
  destruct (forEach parseLine before acc) as [acc1|e]; simpl;
    [|reflexivity].
  rewrite (parseLine_skips c s acc1 H). reflexivity.
Qed.

(** The line [" 1. Task - 5"] after a header is dropped. *)
Lemma unanchored_marker_dropped_witness :
  isDigit 32%N = false /\
  (matchRe (js " 1. Task - 5") markerRe = None /\
   (forall acc, parseLine acc (js " 1. Task - 5") = Ok acc) /\
   (forall before after acc,
       forEach parseLine (before ++ js " 1. Task - 5" :: after) acc =
       forEach parseLine (before ++ after) acc)) /\
  parseAndStructure (js "11/1/2026")
                    (js "Ann B 3/15/24" ++ nl ++ js " 1. Task - 5") =
  Ok (mkNote (js "Ann B") (js "3/15/24") [] (num 0) (num 0)).
Proof.
  split; [reflexivity|]. split.
  - exact (unanchored_marker_dropped 32%N (js "1. Task - 5") eq_refl).
  - vm_compute. reflexivity.
Defined.

(** ** Numbers *)

Lemma num_0 : num 0 = S754_zero false.
Proof. reflexivity. Qed.

Lemma num_10 : num 10 = S754_finite false 5629499534213120 (-49).
Proof. vm_compute. reflexivity. Qed.

Lemma num_60 : num 60 = S754_finite false 8444249301319680 (-47).
Proof. vm_compute. reflexivity. Qed.

Lemma iter_pos_invariant {A} (f : A -> A) (I : A -> Prop) :
  (forall x, I x -> I (f x)) ->
  forall p x, I x -> I (iter_pos f p x).
Proof.
  intros H p. induction p as [p IH|p IH|]; intros x Hx; simpl.
  - apply IH, IH, H, Hx.
  - apply IH, IH, Hx.
  - apply H, Hx.
Qed.

Lemma shr_1_nonneg mrs : (0 <= shr_m mrs)%Z -> (0 <= shr_m (shr_1 mrs))%Z.
Proof.
  destruct mrs as [m r s]. simpl.
  destruct m as [|p|p]; simpl; intros H; try lia.
  destruct p; simpl; lia.
Qed.

Lemma shr_nonneg mrs e n :
  (0 <= shr_m mrs)%Z -> (0 <= shr_m (fst (shr mrs e n)))%Z.
Proof.
  intros H. destruct n as [|p|p]; simpl; try exact H.
  apply (iter_pos_invariant shr_1 (fun x => (0 <= shr_m x)%Z)
           shr_1_nonneg p mrs H).
Qed.

Lemma shr_fexp_nonneg m e l :
  (0 <= m)%Z -> (0 <= shr_m (fst (shr_fexp prec emax m e l)))%Z.
Proof.
  intros H. unfold shr_fexp. apply shr_nonneg.
  destruct l as [|[]]; exact H.
Qed.

Lemma round_nearest_even_nonneg m l :
  (0 <= m)%Z -> (0 <= round_nearest_even m l)%Z.
Proof.
  intros H. destruct l as [|[]]; simpl; try lia.
  destruct (Z.even m); lia.
Qed.

(** Rounding a mantissa that is not negative, with the sign bit clear,
    gives a value that is zero or above: no NaN and no negative value. *)
Lemma binary_round_aux_posOrZero m e l :
  (0 <= m)%Z -> posOrZero (binary_round_aux prec emax false m e l) = true.
Proof.
  intros H. unfold binary_round_aux.
  pose proof (shr_fexp_nonneg m e l H) as H1.
  destruct (shr_fexp prec emax m e l) as [mrs1 e1]. simpl in H1.
  pose proof (shr_fexp_nonneg _ e1 loc_Exact
                (round_nearest_even_nonneg _ (loc_of_shr_record mrs1) H1))
    as H2.
  destruct (shr_fexp prec emax
              (round_nearest_even (shr_m mrs1) (loc_of_shr_record mrs1))
              e1 loc_Exact) as [mrs2 e2].
  simpl in H2. destruct (shr_m mrs2) as [|p|p]; [reflexivity| |lia].
  destruct (e2 <=? emax - prec)%Z; reflexivity.
Qed.

Lemma binary_round_posOrZero m e :
  posOrZero (binary_round prec emax false m e) = true.
Proof.
  unfold binary_round.
  destruct (shl_align m e _) as [mz ez].
  apply binary_round_aux_posOrZero. lia.
Qed.

Lemma div_posOrZero p q e1 e2 :
  posOrZero (SFdiv prec emax (S754_finite false p e1)
                             (S754_finite false q e2)) = true.
Proof.
  unfold SFdiv, SFdiv_core_binary.
  set (m' := match (e1 - e2 - _)%Z with
             | Z0 => Zpos p
             | Zpos _ => Z.shiftl (Zpos p) _
             | Zneg _ => 0%Z
             end).
  assert (Hm : (0 <= m')%Z).
  { unfold m'. destruct (e1 - e2 - _)%Z; try lia.
    apply Z.shiftl_nonneg. lia. }
  pose proof (Z.div_pos m' (Zpos q) Hm ltac:(lia)) as Hq.
  unfold Z.div in Hq. destruct (Z.div_eucl m' (Zpos q)) as [qq rr].
  simpl xorb. apply binary_round_aux_posOrZero. exact Hq.
Qed.

Lemma ofDecimal_posOrZero m e : posOrZero (ofDecimal false m e) = true.
Proof.
  unfold ofDecimal. destruct m as [|p]; [reflexivity|].
  destruct (0 <=? e)%Z.
  - apply binary_round_posOrZero.
  - apply div_posOrZero.
Qed.

Lemma mul_60_posOrZero x :
  posOrZero x = true -> posOrZero (mul x (num 60)) = true.
Proof.
  rewrite num_60. destruct x as [[]|[]| |[] m e]; simpl; intros H;
    try discriminate; try reflexivity.
  unfold mul, SFmul. simpl xorb. apply binary_round_aux_posOrZero. lia.
Qed.

Lemma posOrZero_geb_0 x : posOrZero x = true -> geb x (num 0) = true.
Proof.
  rewrite num_0. destruct x as [[]|[]| |[] m e]; simpl; intros H;
    try discriminate; reflexivity.
Qed.

(** Comparison with a number that is not NaN is decided one way or the
    other. *)
Lemma posOrZero_compare_finite x my ey :
  posOrZero x = true ->
  geb x (S754_finite false my ey) = true \/
  ltb x (S754_finite false my ey) = true.
Proof.
  unfold geb, ltb, SFleb, SFltb.
  destruct x as [[]|[]| |[] m e]; cbn [posOrZero SFcompare]; intros H;
    try discriminate; auto.
  rewrite (Z.compare_antisym e ey).
  destruct (e ?= ey)%Z eqn:E; cbn [CompOpp]; auto.
  rewrite !Pos.compare_cont_spec. cbn [Pos.switch_Eq].
  rewrite (Pos.compare_antisym m my).
  destruct (m ?= my)%positive; cbn [CompOpp]; auto.
Qed.

Lemma posOrZero_compare_10 x :
  posOrZero x = true -> geb x (num 10) = true \/ ltb x (num 10) = true.
Proof. rewrite num_10. apply posOrZero_compare_finite. Qed.

Lemma ltb_not_geb x y : ltb x y = true -> geb x y = false.
Proof.
  unfold geb, ltb, SFleb, SFltb.
  destruct x as [[]|[]| |[] m e], y as [[]|[]| |[] m' e']; simpl;
    try discriminate; try reflexivity.
  - rewrite (Z.compare_antisym e e').
    destruct (e ?= e')%Z; simpl; try discriminate; try reflexivity.
    rewrite !Pos.compare_cont_spec. simpl.
    rewrite (Pos.compare_antisym m m').
    destruct (m ?= m')%positive; simpl; try discriminate; reflexivity.
  - rewrite (Z.compare_antisym e e').
    destruct (e ?= e')%Z; simpl; try discriminate; try reflexivity.
    rewrite !Pos.compare_cont_spec. simpl.
    rewrite (Pos.compare_antisym m m').
    destruct (m ?= m')%positive; simpl; try discriminate; reflexivity.
Qed.

(** ** Characters and trimming *)

Ltac char_cases :=
  unfold isDigitOrDot, isDigit, isSpace, isDash, isDot, notDigit,
    isLineTerminator, between, eqc, ch in *;
  repeat match goal with
         | |- context [N_of_ascii ?a] =>
             let v := eval vm_compute in (N_of_ascii a) in
             change (N_of_ascii a) with v
         | H : context [N_of_ascii ?a] |- _ =>
             let v := eval vm_compute in (N_of_ascii a) in
             change (N_of_ascii a) with v in H
         end;
  repeat match goal with
         | H : context [N.leb ?a ?b] |- _ =>
             destruct (N.leb_spec a b); cbn [andb orb negb] in H;
             try discriminate H
         | H : context [N.eqb ?a ?b] |- _ =>
             destruct (N.eqb_spec a b); cbn [andb orb negb] in H;
             try discriminate H
         | |- context [N.leb ?a ?b] =>
             destruct (N.leb_spec a b); cbn [andb orb negb]; try lia
         | |- context [N.eqb ?a ?b] =>
             destruct (N.eqb_spec a b); cbn [andb orb negb]; try lia
         end;
  try reflexivity; try discriminate; try lia.

Lemma digitOrDot_not_space c : isDigitOrDot c = true -> isSpace c = false.
Proof. intros H. char_cases. Qed.

Lemma space_not_dash c : isSpace c = true -> isDash c = false.
Proof. intros H. char_cases. Qed.

Lemma dash_not_space c : isDash c = true -> isSpace c = false.
Proof. intros H. char_cases. Qed.

Lemma digit_not_period c : isDigit c = true -> eqc (ch ".") c = false.
Proof. intros H. char_cases. Qed.

Lemma takeWhile_span p s : takeWhile p s = firstn (span p s) s.
Proof.
  induction s as [|c s IH]; simpl; [reflexivity|].
  destruct (p c); simpl; [now rewrite IH | reflexivity].
Qed.

Lemma dropWhile_span p s : dropWhile p s = skipn (span p s) s.
Proof.
  induction s as [|c s IH]; simpl; [reflexivity|].
  destruct (p c); simpl; [exact IH | reflexivity].
Qed.

Lemma dropWhile_head p s :
  dropWhile p s = [] \/ exists c t, dropWhile p s = c :: t /\ p c = false.
Proof.
  induction s as [|c s IH]; simpl; [left; reflexivity|].
  destruct (p c) eqn:E; [exact IH|]. right. exists c, s. auto.
Qed.

Lemma dropWhile_stop p c s : p c = false -> dropWhile p (c :: s) = c :: s.
Proof. intros H. simpl. rewrite H. reflexivity. Qed.

Lemma dropWhile_all p s : forallb p s = true -> dropWhile p s = [].
Proof.
  induction s as [|c s IH]; simpl; [reflexivity|].
  intros H. apply andb_prop in H. destruct H as [Hc Hs]. rewrite Hc.
  exact (IH Hs).
Qed.

Lemma dropWhile_snoc p l c :
  p c = false -> dropWhile p (l ++ [c]) = dropWhile p l ++ [c].
Proof.
  intros H. induction l as [|x l IH]; simpl.
  - rewrite H. reflexivity.
  - destruct (p x); [exact IH | reflexivity].
Qed.

Lemma dropWhile_split p s :
  exists w, s = w ++ dropWhile p s /\ forallb p w = true.
Proof.
  exists (firstn (span p s) s). split.
  - rewrite dropWhile_span. symmetry. apply firstn_skipn.
  - apply span_firstn. lia.
Qed.

Lemma forallb_rev (p : char -> bool) s :
  forallb p (rev s) = forallb p s.
Proof.
  induction s as [|c s IH]; simpl; [reflexivity|].
  rewrite forallb_app, IH. simpl. rewrite andb_true_r. apply andb_comm.
Qed.

Lemma trimEnd_split s :
  exists w, s = trimEnd s ++ w /\ forallb isSpace w = true.
Proof.
  destruct (dropWhile_split isSpace (rev s)) as [w [E F]].
  exists (rev w). split.
  - unfold trimEnd. rewrite <- rev_app_distr, <- E. symmetry.
    apply rev_involutive.
  - rewrite forallb_rev. exact F.
Qed.

(** A string is its trimmed text between two runs of white space. *)
Lemma trim_split s :
  exists w1 w2, s = w1 ++ trim s ++ w2 /\
                forallb isSpace w1 = true /\ forallb isSpace w2 = true.
Proof.
  destruct (dropWhile_split isSpace s) as [w1 [E1 F1]].
  destruct (trimEnd_split (trimStart s)) as [w2 [E2 F2]].
  exists w1, w2. unfold trim. split; [|split; assumption].
  rewrite <- E2. exact E1.
Qed.

Lemma trimEnd_last s :
  trimEnd s = [] \/ exists t z, trimEnd s = t ++ [z] /\ isSpace z = false.
Proof.
  unfold trimEnd.
  destruct (dropWhile_head isSpace (rev s)) as [E|[c [t [E H]]]]; rewrite E.
  - left. reflexivity.
  - right. exists (rev t), c. simpl. auto.
Qed.

Lemma trimEnd_head c s :
  isSpace c = false -> exists t, trimEnd (c :: s) = c :: t.
Proof.
  intros H. unfold trimEnd. simpl rev. rewrite (dropWhile_snoc _ _ _ H).
  rewrite rev_app_distr. simpl. eexists. reflexivity.
Qed.

(** Trimmed text is empty or starts and ends with a character that is not
    white space. *)
Lemma trim_head s :
  trim s = [] \/ exists c t, trim s = c :: t /\ isSpace c = false.
Proof.
  unfold trim, trimStart.
  destruct (dropWhile_head isSpace s) as [E|[c [t [E H]]]]; rewrite E.
  - left. reflexivity.
  - right. destruct (trimEnd_head c t H) as [t' E']. exists c, t'. auto.
Qed.

Lemma trim_last s :
  trim s = [] \/ exists t z, trim s = t ++ [z] /\ isSpace z = false.
Proof. unfold trim. apply trimEnd_last. Qed.

Lemma trimStart_trim s : trimStart (trim s) = trim s.
Proof.
  destruct (trim_head s) as [E|[c [t [E H]]]]; rewrite E;
    [reflexivity | apply dropWhile_stop; exact H].
Qed.

Lemma trimStart_stop c s : isSpace c = false -> trimStart (c :: s) = c :: s.
Proof. apply dropWhile_stop. Qed.

Lemma trim_all_space s : forallb isSpace s = true -> trim s = [].
Proof.
  intros H. unfold trim, trimStart. rewrite (dropWhile_all _ _ H).
  reflexivity.
Qed.

(** Trimming a string that starts and ends with a character that is not
    white space leaves it as it is. *)
Lemma trim_fixed c t z :
  isSpace c = false -> isSpace z = false ->
  trim (c :: t ++ [z]) = c :: t ++ [z].
Proof.
  intros Hc Hz. unfold trim. rewrite (trimStart_stop _ _ Hc).
  unfold trimEnd.
  replace (rev (c :: t ++ [z])) with (z :: rev (c :: t)).
  2: { change (c :: t ++ [z]) with ((c :: t) ++ [z]).
       rewrite rev_app_distr. reflexivity. }
  rewrite (dropWhile_stop _ _ _ Hz).
  change (z :: rev (c :: t)) with (rev [z] ++ rev (c :: t)).
  rewrite <- rev_app_distr, rev_involutive. reflexivity.
Qed.

Lemma trim_trim s : trim (trim s) = trim s.
Proof.
  destruct (trim_head s) as [E|[c [t [E Hc]]]]; [rewrite E; reflexivity|].
  destruct (trim_last s) as [E'|[t' [z [E' Hz]]]].
  - rewrite E' in E. discriminate.
  - destruct t' as [|c' t'].
    + rewrite E'. unfold trim, trimStart, trimEnd. simpl. rewrite Hz.
      simpl. rewrite Hz. reflexivity.
    + rewrite E'. simpl in E'. rewrite E in E'. injection E' as -> ->.
      apply (trim_fixed c' t' z Hc Hz).
Qed.

(** ** [parseFloat] and [parseInt] *)

Lemma sign_neg s : fst (sign s) = true -> startsWith (js "-") s = true.
Proof.
  destruct s as [|c s]; simpl; [discriminate|].
  destruct (eqc c 45%N) eqn:E.
  - intros _. unfold eqc in *. apply N.eqb_eq in E. subst c. reflexivity.
  - destruct (eqc c 43%N); discriminate.
Qed.

(** [parseFloat] gives NaN, or a value that is zero or above, unless the text
    starts with a minus sign after its leading white space. *)
Lemma parseFloat_cases s :
  parseFloat s = nan \/ posOrZero (parseFloat s) = true \/
  startsWith (js "-") (trimStart s) = true.
Proof.
  unfold parseFloat. pose proof (sign_neg (trimStart s)) as H.
  destruct (sign (trimStart s)) as [neg s1]. simpl in H.
  destruct neg; [right; right; apply H; reflexivity|].
  destruct (startsWith (js "Infinity") s1); [right; left; reflexivity|].
  cbv zeta.
  destruct (match dropWhile isDigit s1 with
            | [] => false
            | c :: _ => eqc c 46%N
            end).
  - destruct (takeWhile isDigit s1 ++ _); [left; reflexivity|].
    right; left. apply ofDecimal_posOrZero.
  - destruct (takeWhile isDigit s1); [left; reflexivity|].
    right; left. apply ofDecimal_posOrZero.
Qed.

Lemma digit_facts c :
  isDigit c = true ->
  isSpace c = false /\ eqc c 45%N = false /\ eqc c 43%N = false /\
  eqc 73%N c = false /\ eqc c 46%N = false /\ eqc 120%N c = false /\
  eqc 88%N c = false.
Proof. intros H. repeat split; char_cases. Qed.

Lemma period_facts c :
  eqc (ch ".") c = true ->
  c = 46%N /\ isSpace c = false /\ eqc c 45%N = false /\ eqc c 43%N = false /\
  eqc 73%N c = false /\ isDigit c = false.
Proof. intros H. repeat split; char_cases. Qed.

Lemma takeWhile_all p s : forallb p s = true -> takeWhile p s = s.
Proof.
  intros H. rewrite takeWhile_span, (span_all _ _ H). apply firstn_all.
Qed.

(** A text that starts with a digit parses to a value that is zero or
    above. *)
Lemma parseFloat_digit_first c t :
  isDigit c = true -> exists n e, parseFloat (c :: t) = ofDecimal false n e.
Proof.
  intros H. destruct (digit_facts c H) as [Hs [Hm [Hp [Hi _]]]].
  unfold parseFloat. rewrite (trimStart_stop _ _ Hs).
  unfold sign. rewrite Hm, Hp.
  change (startsWith (js "Infinity") (c :: t)) with
    (eqc 73%N c && startsWith (js "nfinity") t)%bool.
  rewrite Hi. cbn [andb]. cbv zeta.
  cbn [takeWhile]. rewrite H.
  destruct (match dropWhile isDigit (c :: t) with
            | [] => false
            | c0 :: _ => eqc c0 46%N
            end); cbn [app]; eexists; eexists; reflexivity.
Qed.

(** So does a text that starts with a period and a digit. *)
Lemma parseFloat_period_digit c d t :
  eqc (ch ".") c = true -> isDigit d = true ->
  exists n e, parseFloat (c :: d :: t) = ofDecimal false n e.
Proof.
  intros Hc H. destruct (period_facts c Hc) as [-> [Hs [Hm [Hp [Hi Hd]]]]].
  unfold parseFloat. rewrite (trimStart_stop _ _ Hs).
  unfold sign. rewrite Hm, Hp.
  change (startsWith (js "Infinity") (46%N :: d :: t)) with
    (eqc 73%N 46%N && startsWith (js "nfinity") (d :: t))%bool.
  rewrite Hi. cbn [andb]. cbv zeta.
  cbn [takeWhile dropWhile]. rewrite Hd. cbn [tl app takeWhile]. rewrite H.
  change (eqc 46%N 46%N) with true. cbn iota.
  eexists; eexists; reflexivity.
Qed.

(** [parseInt] on a run of digits. *)
Lemma parseInt_digits ds :
  ds <> [] -> forallb isDigit ds = true ->
  parseInt ds = ofDecimal false (digitsValue ds) 0.
Proof.
  intros Hne Hall. destruct ds as [|c t]; [contradiction|].
  pose proof Hall as Hall'. simpl in Hall. apply andb_prop in Hall.
  destruct Hall as [Hc Ht].
  destruct (digit_facts c Hc) as [Hs [Hm [Hp _]]].
  unfold parseInt. rewrite (trimStart_stop _ _ Hs).
  unfold sign. rewrite Hm, Hp.
  assert (Hx : hexPrefix (c :: t) = false).
  { unfold hexPrefix.
    change (startsWith (js "0x") (c :: t)) with
      (eqc 48%N c && startsWith (js "x") t)%bool.
    change (startsWith (js "0X") (c :: t)) with
      (eqc 48%N c && startsWith (js "X") t)%bool.
    destruct t as [|y t]; [now rewrite !andb_false_r|].
    simpl in Ht. apply andb_prop in Ht. destruct Ht as [Hy _].
    destruct (digit_facts y Hy) as [_ [_ [_ [_ [_ [Hx HX]]]]]].
    change (startsWith (js "x") (y :: t)) with (eqc 120%N y && true)%bool.
    change (startsWith (js "X") (y :: t)) with (eqc 88%N y && true)%bool.
    rewrite Hx, HX. now rewrite !andb_false_r. }
  rewrite Hx, (takeWhile_all _ _ Hall'). reflexivity.
Qed.

(** ** What the groups capture *)

Lemma counts_bound_hi g lo h p s k :
  In k (counts g lo (Some h) p s) -> k <= h.
Proof.
  unfold counts. intros H.
  assert (Hs : In k (seq lo (S (Nat.min h (span p s)) - lo))).
  { destruct g; [apply in_rev in H|]; exact H. }
  apply in_seq in Hs. lia.
Qed.

Lemma in_run_Rep g lo hi p st st' :
  In st' (run (Rep g lo hi p) st) ->
  exists k, st' = advance st k /\ lo <= k /\ k <= span p (rest st) /\
            match hi with Some h => k <= h | None => True end.
Proof.
  rewrite run_Rep. intros H. apply in_map_iff in H.
  destruct H as [k [<- Hk]]. exists k. split; [reflexivity|].
  destruct (counts_bounds _ _ _ _ _ _ Hk) as [H1 H2].
  split; [exact H1|]. split; [exact H2|].
  destruct hi as [h|]; [exact (counts_bound_hi _ _ _ _ _ _ Hk) | exact I].
Qed.

Lemma in_run_Cat r1 r2 st st' :
  In st' (run (r1 ;; r2) st) ->
  exists st1, In st1 (run r1 st) /\ In st' (run r2 st1).
Proof. rewrite run_Cat. intros H. apply in_flat_map in H. exact H. Qed.

Lemma hd_error_In {A} (l : list A) x : hd_error l = Some x -> In x l.
Proof. destruct l; simpl; [discriminate|]. intros H. injection H. auto. Qed.

Lemma run_group i Q r :
  grpBody i Q r ->
  forall st st', In st' (run r st) ->
  (forall d, group i (got st) = Some d -> Q d) ->
  forall d, group i (got st') = Some d -> Q d.
Proof.
  induction r as [| |p|g lo hi p|r1 IH1 r2 IH2|r1 IH1|j r1 IH1];
    simpl; intros B st st' H G.
  - destruct (idx st); [|contradiction]. destruct H as [<-|[]]. exact G.
  - destruct (rest st); [|contradiction]. destruct H as [<-|[]]. exact G.
  - destruct (rest st) as [|c s]; [contradiction|].
    destruct (p c); [|contradiction]. destruct H as [<-|[]]. exact G.
  - apply in_map_iff in H. destruct H as [k [<- _]]. exact G.
  - destruct B as [B1 B2]. apply in_flat_map in H.
    destruct H as [st1 [H1 H2]].
    exact (IH2 B2 _ _ H2 (IH1 B1 _ _ H1 G)).
  - apply in_app_or in H. destruct H as [H|[<-|[]]];
      [exact (IH1 B _ _ H G) | exact G].
  - apply in_map_iff in H. destruct H as [st1 [<- H1]]. simpl.
    destruct (Nat.eqb i j).
    + intros d E. injection E as <-. exact (B _ _ H1).
    + exact (IH1 B _ _ H1 G).
Qed.

Lemma matchRe_group i Q r s m d :
  i <> 0 -> grpBody i Q r -> matchRe s r = Some m ->
  group i m = Some d -> Q d.
Proof.
  intros Hi B H E. destruct (matchRe_path r s m H) as [j [st [I G]]].
  rewrite (G i Hi) in E.
  refine (run_group i Q r B _ _ I _ d E). simpl. discriminate.
Qed.

(** What a repeated class consumes. *)
Lemma consumed_Rep g lo hi p st st1 :
  In st1 (run (Rep g lo hi p) st) ->
  exists k, lo <= k /\ k <= span p (rest st) /\
            consumed st st1 = firstn k (rest st).
Proof.
  intros H. apply in_run_Rep in H. destruct H as [k [-> [H1 [H2 _]]]].
  exists k. split; [exact H1|]. split; [exact H2|].
  unfold consumed, advance. simpl. f_equal. lia.
Qed.

Lemma firstn_nonempty {A} k (s : list A) :
  1 <= k -> 1 <= List.length s -> firstn k s <> [].
Proof.
  destruct k; [lia|]. destruct s; simpl; [lia | discriminate].
Qed.

Lemma plus_captures p g st st1 :
  In st1 (run (Rep g 1 None p) st) ->
  forallb p (consumed st st1) = true /\ consumed st st1 <> [].
Proof.
  intros H. apply consumed_Rep in H. destruct H as [k [H1 [H2 ->]]].
  split; [apply span_firstn; exact H2|].
  apply firstn_nonempty; [exact H1|].
  pose proof (span_le_length p (rest st)). lia.
Qed.

(** An expression that ends with [$] consumes the input to its end. *)
Lemma run_endsEol r :
  endsEol r = true -> forall st st', In st' (run r st) -> rest st' = [].
Proof.
  induction r as [| |p|g lo hi p|r1 IH1 r2 IH2|r1 IH1|j r1 IH1];
    simpl; intros E st st' H; try discriminate.
  - destruct (rest st) eqn:R; [|contradiction]. destruct H as [<-|[]].
    exact R.
  - apply in_flat_map in H. destruct H as [st1 [_ H2]].
    exact (IH2 E _ _ H2).
Qed.

(** A text matched from [^] to [$] is made of the classes of the
    expression. *)
Lemma matchRe_whole P r s m :
  within P r -> endsEol r = true -> matchRe s (Bol ;; r) = Some m ->
  forallb P s = true.
Proof.
  intros W E H. rewrite matchRe_anchored in H.
  destruct (hd_error (run r (start s))) as [st|] eqn:Hd; [|discriminate].
  apply hd_error_In in Hd.
  destruct (run_within P r W _ _ Hd) as [k [_ [R [L F]]]].
  rewrite (run_endsEol r E _ _ Hd) in R. simpl in R, L, F.
  assert (Hk : k = List.length s).
  { pose proof (length_skipn k s) as Hl. rewrite <- R in Hl. simpl in Hl.
    lia. }
  subst k. rewrite firstn_all in F. exact F.
Qed.

(** ** Bare numbers *)

Lemma numeric_chars t m :
  matchRe t numericRe = Some m -> forallb isDigitOrDot t = true.
Proof.
  unfold numericRe. apply matchRe_whole; [|reflexivity].
  cbn [within]. repeat split; intros c H; char_cases.
Qed.

Lemma digitOrDot_no_min t :
  forallb isDigitOrDot t = true -> includes t (js "min") = false.
Proof.
  induction t as [|c t IH]; [reflexivity|].
  intros H. simpl in H. apply andb_prop in H. destruct H as [Hc Ht].
  change (includes (c :: t) (js "min")) with
    (eqc 109%N c && startsWith (js "in") t || includes t (js "min"))%bool.
  rewrite (IH Ht). assert (E : eqc 109%N c = false) by char_cases.
  rewrite E. reflexivity.
Qed.

(** The value of a purely numeric token is a number, zero or above. *)
Lemma numeric_parse t m :
  matchRe t numericRe = Some m ->
  exists n e, parseFloat t = ofDecimal false n e.
Proof.
  unfold numericRe. rewrite matchRe_anchored. intros H.
  destruct (hd_error _) as [st|] eqn:Hd; [|discriminate]. clear H.
  apply hd_error_In in Hd.
  apply in_run_Cat in Hd. destruct Hd as [st1 [H1 Hd]].
  apply in_run_Cat in Hd. destruct Hd as [st2 [H2 Hd]].
  apply in_run_Cat in Hd. destruct Hd as [st3 [H3 _]].
  apply in_run_Rep in H1. destruct H1 as [k1 [-> [_ [K1 _]]]].
  apply in_run_Rep in H2. destruct H2 as [k2 [-> [_ [K2 K2']]]].
  apply in_run_Rep in H3. destruct H3 as [k3 [-> [L3 [K3 _]]]].
  unfold start in *. cbn [rest advance] in K1, K2, K3.
  destruct t as [|c t].
  - rewrite !skipn_nil in K3. cbn [span] in K3. lia.
  - destruct (isDigit c) eqn:Hc; [exact (parseFloat_digit_first c t Hc)|].
    rewrite (span_stop _ _ _ Hc) in K1.
    assert (k1 = 0) by lia. subst k1. cbn [skipn] in K2, K3.
    destruct k2 as [|k2].
    + cbn [skipn span] in K3. rewrite Hc in K3. lia.
    + assert (k2 = 0) by lia. subst k2.
      cbn [span] in K2. change (ch ".") with 46%N in K2.
      destruct (eqc 46%N c) eqn:Hp; [|lia].
      cbn [skipn] in K3. destruct t as [|d t]; [cbn [span] in K3; lia|].
      cbn [span] in K3.
      destruct (isDigit d) eqn:Hd; [|lia].
      exact (parseFloat_period_digit c d t Hp Hd).
Qed.

Lemma numeric_posOrZero t m :
  matchRe t numericRe = Some m -> posOrZero (parseFloat t) = true.
Proof.
  intros H. destruct (numeric_parse t m H) as [n [e ->]].
  apply ofDecimal_posOrZero.
Qed.

(** The first branch of the conditional. *)
Lemma resolveMinutes_numeric t :
  isSome (matchRe t numericRe) = true ->
  resolveMinutes t =
  if geb (parseFloat t) (num 10) then parseFloat t
  else mul (parseFloat t) (num 60).
Proof.
  intros H. unfold resolveMinutes.
  destruct (matchRe t numericRe) as [m|] eqn:E; [|discriminate].
  rewrite (digitOrDot_no_min t (numeric_chars t m E)). reflexivity.
Qed.

(** ** The activities of a note *)

Lemma parseLine_resolved acc line acc' :
  (forall a, In a (fst acc) -> resolved a) ->
  parseLine acc line = Ok acc' ->
  forall a, In a (fst acc') -> resolved a.
Proof.
  intros I E.
  destruct (parseLine_cases acc line) as [E'|[g1 [g2 [m [_ [_ [_ E']]]]]]];
    rewrite E' in E; injection E as <-; [exact I|].
  cbn [fst]. intros a Ha. apply in_app_or in Ha.
  destruct Ha as [Ha|[<-|[]]]; [exact (I a Ha)|].
  split; [reflexivity | apply trim_trim].
Qed.

Lemma activities_resolved today text note a :
  parseAndStructure today text = Ok note ->
  In a (activities note) -> resolved a.
Proof.
  intros E Ha.
  destruct (parseAndStructure_ok today text) as [n [acts [t [_ [L E']]]]].
  rewrite E' in E. injection E as <-. simpl in Ha.
  refine (forEach_invariant parseLine
            (fun acc => forall a, In a (fst acc) -> resolved a)
            _ (tl (linesOf text)) ([], num 0) (acts, t) _ L a Ha).
  - intros s x s'. apply parseLine_resolved.
  - simpl. contradiction.
Qed.

(** C1. For an activity whose time token is purely numeric
    ([/^\d*\.?\d+$/]), the token has a numeric value [v] that is either at
    least 10 or below 10; the minutes are [v] in the first case and
    [v * 60] in the second. The tokens "9.9", "10" and "10.5" resolve to
    594, 10 and 10.5 (21/2) minutes. *)
Theorem bare_number_minutes :
  (forall (today text : str) (note : Note) (a : Activity),
      parseAndStructure today text = Ok note ->
      In a (activities note) ->
      isSome (matchRe (timeStr a) numericRe) = true ->
      let v := parseFloat (timeStr a) in
      (geb v (num 10) = true \/ ltb v (num 10) = true) /\
      (geb v (num 10) = true -> minutes a = v) /\
      (ltb v (num 10) = true -> minutes a = mul v (num 60))) /\
  resolveMinutes (js "9.9") = num 594 /\
  resolveMinutes (js "10") = num 10 /\
  resolveMinutes (js "10.5") = div (num 21) (num 2).
Proof.
  split; [|repeat split; vm_compute; reflexivity].
  intros today text note a E Ha Hn v.
  destruct (activities_resolved today text note a E Ha) as [-> _].
  rewrite (resolveMinutes_numeric _ Hn). fold v.
  destruct (matchRe (timeStr a) numericRe) as [m|] eqn:Em; [|discriminate].
  pose proof (numeric_posOrZero _ m Em) as Hp. fold v in Hp.
  split; [exact (posOrZero_compare_10 v Hp)|]. split.
  - intros ->. reflexivity.
  - intros Hl. rewrite (ltb_not_geb _ _ Hl). reflexivity.
Qed.

(** The note of a text with the three tokens of the specification. *)
Lemma bare_number_minutes_witness :
  let text := js "Ann B 3/15/24" ++ nl ++ js "1. Call - 9.9" ++ nl ++
              js "2. Visit - 10" ++ nl ++ js "3. Notes - 10.5" in
  let a1 := mkActivity (js "Call") (js "9.9") (num 594) in
  let a2 := mkActivity (js "Visit") (js "10") (num 10) in
  let a3 := mkActivity (js "Notes") (js "10.5") (div (num 21) (num 2)) in
  let note := mkNote (js "Ann B") (js "3/15/24") [a1; a2; a3]
                     (div (add (add (num 594) (num 10))
                               (div (num 21) (num 2))) (num 60))
                     (add (add (num 594) (num 10)) (div (num 21) (num 2))) in
  parseAndStructure (js "11/1/2026") text = Ok note /\
  (ltb (parseFloat (js "9.9")) (num 10) = true ->
   minutes a1 = mul (parseFloat (js "9.9")) (num 60)) /\
  (geb (parseFloat (js "10")) (num 10) = true ->
   minutes a2 = parseFloat (js "10")) /\
  (geb (parseFloat (js "10.5")) (num 10) = true ->
   minutes a3 = parseFloat (js "10.5")).
Proof.
  intros text a1 a2 a3 note.
  assert (E : parseAndStructure (js "11/1/2026") text = Ok note)
    by (vm_compute; reflexivity).
  split; [exact E|]. split; [|split].
  - exact (proj2 (proj2 (proj1 bare_number_minutes (js "11/1/2026") text
                           note a1 E (or_introl eq_refl) eq_refl))).
  - exact (proj1 (proj2 (proj1 bare_number_minutes (js "11/1/2026") text
                           note a2 E (or_intror (or_introl eq_refl))
                           eq_refl))).
  - exact (proj1 (proj2 (proj1 bare_number_minutes (js "11/1/2026") text
                           note a3 E
                           (or_intror (or_intror (or_introl eq_refl)))
                           eq_refl))).
Defined.

(** ** The sign of the minutes *)

Lemma threshold_cases v :
  v = nan \/ posOrZero v = true ->
  (if geb v (num 10) then v else mul v (num 60)) = nan \/
  posOrZero (if geb v (num 10) then v else mul v (num 60)) = true.
Proof.
  intros [->|H].
  - left. reflexivity.
  - right. destruct (geb v (num 10)); [exact H|].
    apply mul_60_posOrZero. exact H.
Qed.

Lemma parseFloat_unsigned s :
  startsWith (js "-") (trimStart s) = false ->
  parseFloat s = nan \/ posOrZero (parseFloat s) = true.
Proof.
  intros H. destruct (parseFloat_cases s) as [E|[E|E]]; auto.
  rewrite E in H. discriminate.
Qed.

Lemma grpBody_Lit i Q s : grpBody i Q (Lit s).
Proof.
  induction s as [|c s IH]; [exact I|].
  destruct s as [|d s]; [exact I|]. split; [exact I | exact IH].
Qed.

Lemma minRe_group t m g :
  matchRe t minRe = Some m -> group 1 m = Some g ->
  forallb isDigit g = true /\ g <> [].
Proof.
  apply (matchRe_group 1 (fun d => forallb isDigit d = true /\ d <> []));
    [discriminate|].
  unfold minRe. cbn [grpBody Nat.eqb].
  split; [intros st st1; apply plus_captures|].
  split; [exact I | apply grpBody_Lit].
Qed.

Lemma hrRe_group t m g :
  matchRe t hrRe = Some m -> group 1 m = Some g ->
  forallb isDigitOrDot g = true /\ g <> [].
Proof.
  apply (matchRe_group 1
           (fun d => forallb isDigitOrDot d = true /\ d <> []));
    [discriminate|].
  unfold hrRe. cbn [grpBody Nat.eqb].
  split; [intros st st1; apply plus_captures|].
  split; [exact I|]. split; [apply grpBody_Lit | exact I].
Qed.

(** Unless the token starts with a minus sign and has neither "min" nor
    "hr", the minutes are NaN or a value that is zero or above. *)
Lemma resolveMinutes_cases t :
  startsWith (js "-") (trimStart t) = false \/
  includes t (js "min") = true \/ includes t (js "hr") = true ->
  resolveMinutes t = nan \/ posOrZero (resolveMinutes t) = true.
Proof.
  intros H. unfold resolveMinutes.
  destruct (matchRe t numericRe) as [mn|] eqn:En; cbn [isSome andb].
  - destruct (includes t (js "min")) eqn:Emin; cbn [negb].
    + pose proof (digitOrDot_no_min t (numeric_chars t mn En)) as C.
      rewrite C in Emin. discriminate.
    + apply threshold_cases. right. exact (numeric_posOrZero t mn En).
  - destruct (includes t (js "min")) eqn:Emin.
    { destruct (matchRe t minRe) as [m|] eqn:E; [|right; reflexivity].
      destruct (group 1 m) as [g|] eqn:G; [|left; reflexivity].
      destruct (minRe_group t m g E G) as [Hall Hne]. cbn [toStr].
      rewrite (parseInt_digits g Hne Hall). right.
      apply ofDecimal_posOrZero. }
    destruct (includes t (js "hr")) eqn:Ehr.
    { destruct (matchRe t hrRe) as [m|] eqn:E; [|right; reflexivity].
      destruct (group 1 m) as [g|] eqn:G; [|left; reflexivity].
      destruct (hrRe_group t m g E G) as [Hall Hne]. cbn [toStr].
      destruct g as [|c g]; [contradiction|].
      cbn [forallb] in Hall. apply andb_prop in Hall.
      destruct Hall as [Hc _].
      assert (Hs : startsWith (js "-") (trimStart (c :: g)) = false).
      { rewrite (trimStart_stop _ _ (digitOrDot_not_space c Hc)).
        change (startsWith (js "-") (c :: g)) with (eqc 45%N c && true)%bool.
        assert (E45 : eqc 45%N c = false) by char_cases.
        rewrite E45. reflexivity. }
      destruct (parseFloat_unsigned _ Hs) as [->|Hp].
      - left. reflexivity.
      - right. apply mul_60_posOrZero. exact Hp. }
    destruct H as [H|[H|H]]; try discriminate.
    apply threshold_cases, parseFloat_unsigned, H.
Qed.

(** C3, as the code has it. Every activity of the returned note whose
    minutes are a number (not NaN) has minutes at least 0, unless its time
    token starts with a minus sign and contains neither "min" nor "hr". *)
Theorem minutes_nonneg_unsigned :
  forall (today text : str) (note : Note) (a : Activity),
    parseAndStructure today text = Ok note ->
    In a (activities note) ->
    startsWith (js "-") (timeStr a) = false \/
    includes (timeStr a) (js "min") = true \/
    includes (timeStr a) (js "hr") = true ->
    minutes a <> nan ->
    geb (minutes a) (num 0) = true.
Proof.
  intros today text note a E Ha Hs Hn.
  destruct (activities_resolved today text note a E Ha) as [Hm Ht].
  rewrite Hm in *. apply posOrZero_geb_0.
  assert (Hs' : startsWith (js "-") (trimStart (timeStr a)) = false \/
                includes (timeStr a) (js "min") = true \/
                includes (timeStr a) (js "hr") = true).
  { destruct Hs as [Hs|Hs]; [left|right; exact Hs].
    rewrite <- Ht at 1. rewrite trimStart_trim, Ht. exact Hs. }
  destruct (resolveMinutes_cases _ Hs') as [Hc|Hc];
    [contradiction | exact Hc].
Qed.

Lemma minutes_nonneg_unsigned_witness :
  let text := js "Ann B 3/15/24" ++ nl ++ js "1. Call - 75" in
  let a := mkActivity (js "Call") (js "75") (num 75) in
  let note := mkNote (js "Ann B") (js "3/15/24") [a]
                     (div (num 75) (num 60)) (num 75) in
  parseAndStructure (js "11/1/2026") text = Ok note /\
  geb (minutes a) (num 0) = true.
Proof.
  intros text a note.
  assert (E : parseAndStructure (js "11/1/2026") text = Ok note)
    by (vm_compute; reflexivity).
  split; [exact E|].
  apply (minutes_nonneg_unsigned (js "11/1/2026") text note a E
           (or_introl eq_refl) (or_introl eq_refl)).
  discriminate.
Defined.

(** C3 as stated fails: the token "-5" reaches the last branch, where
    [parseFloat] reads the sign, and the activity gets -300 minutes. *)
Lemma minutes_nonneg_counterexample :
  let text := js "Ann B 3/15/24" ++ nl ++ js "1. Refund - -5" in
  let a := mkActivity (js "Refund") (js "-5") (num (-300)) in
  parseAndStructure (js "11/1/2026") text =
  Ok (mkNote (js "Ann B") (js "3/15/24") [a]
             (num (-5)) (num (-300))) /\
  geb (minutes a) (num 0) = false.
Proof. split; vm_compute; reflexivity. Qed.

(** ** The first path of a match *)

Lemma skipn_app_exact {A} (a b : list A) : skipn (List.length a) (a ++ b) = b.
Proof. induction a as [|x a IH]; simpl; [reflexivity | exact IH]. Qed.

Lemma firstn_app_exact {A} (a b : list A) :
  firstn (List.length a) (a ++ b) = a.
Proof. induction a as [|x a IH]; simpl; [reflexivity | now rewrite IH]. Qed.

Lemma span_app_stop p a b :
  forallb p a = true -> span p b = 0 -> span p (a ++ b) = List.length a.
Proof. intros Ha Hb. rewrite (span_app_all _ _ _ Ha), Hb. lia. Qed.

(** A greedy quantifier first takes the whole run [a] in front of [b]. *)
Lemma run_greedy_head lo p i a b c :
  forallb p a = true -> span p b = 0 -> lo <= List.length a ->
  exists l, run (Rep true lo None p) (MState i (a ++ b) c) =
            MState (i + List.length a) b c :: l.
Proof.
  intros Ha Hb Hlo. rewrite run_Rep. cbn [rest].
  rewrite counts_greedy_head; rewrite (span_app_stop _ _ _ Ha Hb);
    [|exact Hlo].
  cbn [List.map]. unfold advance at 1. cbn [idx rest got].
  rewrite skipn_app_exact. eexists. reflexivity.
Qed.

Lemma skipn_nth {A} k (s : list A) x :
  nth_error s k = Some x -> skipn k s = x :: skipn (S k) s.
Proof.
  revert s. induction k as [|k IH]; intros [|y s] H; simpl in *;
    try discriminate.
  - injection H as ->. reflexivity.
  - exact (IH s H).
Qed.

(** A class [q] after a greedy run of a class [p] that excludes it: the
    character that ends the run decides, no shorter run can reach [q]. *)
Lemma run_greedy_then p q lo r i a x b c :
  (forall y, p y = true -> q y = false) ->
  forallb p a = true -> p x = false ->
  run (Rep true lo None p ;; Cls q ;; r) (MState i (a ++ x :: b) c) =
  if (lo <=? List.length a) && q x
  then run r (MState (i + S (List.length a)) b c)
  else [].
Proof.
  intros D Ha Hx.
  assert (Hsp : span p (a ++ x :: b) = List.length a).
  { apply span_app_stop; [exact Ha | apply span_stop; exact Hx]. }
  rewrite run_Cat.
  assert (Hshort : forall st, In st (List.map (advance (MState i (a ++ x :: b) c))
                                       (rev (seq lo (List.length a - lo)))) ->
                              run (Cls q ;; r) st = []).
  { intros st Hst. apply in_map_iff in Hst. destruct Hst as [k [<- Hk]].
    apply in_rev, in_seq in Hk. rewrite run_Cat.
    assert (Hn : exists y, nth_error (a ++ x :: b) k = Some y).
    { destruct (nth_error (a ++ x :: b) k) eqn:E; [eexists; reflexivity|].
      apply nth_error_None in E. rewrite length_app in E. lia. }
    destruct Hn as [y Hy].
    rewrite run_Cls_miss; [reflexivity|].
    unfold advance. cbn [rest]. rewrite (skipn_nth _ _ _ Hy).
    apply D. apply (span_before p (a ++ x :: b) k y); [lia | exact Hy]. }
  rewrite run_Rep. cbn [rest].
  destruct (Nat.leb_spec lo (List.length a)) as [Hlo|Hlo]; cbn [andb].
  - rewrite counts_greedy_head; rewrite Hsp; [|exact Hlo].
    cbn [List.map flat_map]. rewrite (flat_map_all_nil _ _ Hshort).
    rewrite app_nil_r, run_Cat. unfold advance at 1. cbn [idx rest got].
    rewrite skipn_app_exact. cbn [run rest].
    destruct (q x); [|reflexivity].
    cbn [flat_map]. rewrite app_nil_r. unfold advance. cbn [idx rest got skipn].
    replace (i + List.length a + 1) with (i + S (List.length a)) by lia.
    reflexivity.
  - rewrite counts_greedy, Hsp.
    replace (S (List.length a) - lo) with 0 by lia. reflexivity.
Qed.

(** A group around a quantified class. *)
Lemma run_Grp_Rep i g lo hi p st :
  run (Grp i (Rep g lo hi p)) st =
  List.map (fun k => MState (idx st + k) (skipn k (rest st))
                            ((i, firstn k (rest st)) :: got st))
           (counts g lo hi p (rest st)).
Proof.
  rewrite run_Grp, run_Rep, map_map. apply map_ext. intros k.
  unfold consumed, advance. cbn [idx rest got].
  replace (idx st + k - idx st) with k by lia. reflexivity.
Qed.

(** Literal text at the head of the input. *)
Lemma run_Lit_hit s i b c :
  s <> [] ->
  run (Lit s) (MState i (s ++ b) c) = [MState (i + List.length s) b c].
Proof.
  revert i. induction s as [|x s IH]; intros i Hne; [contradiction|].
  destruct s as [|y s].
  - cbn. unfold eqc. rewrite N.eqb_refl. unfold advance. reflexivity.
  - change (Lit (x :: y :: s)) with (Cls (eqc x) ;; Lit (y :: s)).
    rewrite run_Cat.
    rewrite (run_Cls_hit (eqc x) (MState i ((x :: y :: s) ++ b) c) x
               ((y :: s) ++ b) eq_refl); [|apply N.eqb_refl].
    cbn [flat_map]. unfold advance. cbn [idx rest got skipn app].
    pose proof (IH (i + 1) ltac:(discriminate)) as E. cbn [app] in E.
    rewrite E. cbn [app List.length].
    replace (i + 1 + S (List.length s)) with (i + S (S (List.length s)))
      by lia.
    reflexivity.
Qed.

(** ** Tokens with a unit *)

Lemma startsWith_app s b : startsWith s (s ++ b) = true.
Proof.
  induction s as [|x s IH]; [reflexivity|]. simpl. unfold eqc.
  rewrite N.eqb_refl. exact IH.
Qed.

Lemma includes_here s t : startsWith s t = true -> includes t s = true.
Proof. intros H. destruct t; simpl; rewrite H; reflexivity. Qed.

Lemma includes_later a t s : includes t s = true -> includes (a ++ t) s = true.
Proof.
  intros H. induction a as [|x a IH]; [exact H|].
  cbn [app includes]. rewrite IH. apply orb_true_r.
Qed.

Lemma includes_mid a s b : includes (a ++ s ++ b) s = true.
Proof. apply includes_later, includes_here, startsWith_app. Qed.

Lemma run_optional_head hi p st :
  exists k l, run (Rep true 0 hi p) st = advance st k :: l.
Proof.
  rewrite run_Rep. unfold counts.
  set (most := match hi with
               | Some h => Nat.min h (span p (rest st))
               | None => span p (rest st)
               end).
  rewrite (rev_seq_top 0 most (Nat.le_0_l most)). cbn [List.map].
  eexists. eexists. reflexivity.
Qed.

Lemma space_then_unit_stop W u b :
  forallb isSpace W = true -> isDigit u = false ->
  span isDigit (W ++ u :: b) = 0.
Proof.
  intros HW Hu. destruct W as [|w W]; cbn [app span].
  - rewrite Hu. reflexivity.
  - cbn [forallb] in HW. apply andb_prop in HW. destruct HW as [Hw _].
    assert (E : isDigit w = false) by char_cases. rewrite E. reflexivity.
Qed.

(** [/(\d+)\s*min/] on a token that starts with digits, white space and
    "min": the match is at index 0 and the group is the run of digits. *)
Lemma minRe_leading D W b :
  D <> [] -> forallb isDigit D = true -> forallb isSpace W = true ->
  exists m, matchRe (D ++ W ++ js "min" ++ b) minRe = Some m /\
            group 1 m = Some D.
Proof.
  intros Hne HD HW.
  assert (Hsp : span isDigit (W ++ js "min" ++ b) = 0)
    by (apply space_then_unit_stop; [exact HW | reflexivity]).
  assert (HlenD : 1 <= List.length D) by (destruct D; simpl; [contradiction | lia]).
  destruct (run_greedy_head 0 isSpace (0 + List.length D) W (js "min" ++ b)
              [(1, D)] HW eq_refl (Nat.le_0_l _)) as [l2 E2].
  eexists. split.
  - apply matchRe_at_0. unfold minRe, start.
    rewrite run_Cat, run_Grp_Rep. cbn [rest idx got].
    rewrite counts_greedy_head; rewrite (span_app_stop _ _ _ HD Hsp);
      [|exact HlenD].
    cbn [List.map]. rewrite skipn_app_exact, firstn_app_exact.
    apply hd_flat_map_head. rewrite run_Cat, E2.
    apply hd_flat_map_head. rewrite run_Lit_hit; [|discriminate].
    reflexivity.
  - reflexivity.
Qed.

Lemma space_then_unit_stop' W u b :
  forallb isSpace W = true -> isDigitOrDot u = false ->
  span isDigitOrDot (W ++ u :: b) = 0.
Proof.
  intros HW Hu. destruct W as [|w W]; cbn [app span].
  - rewrite Hu. reflexivity.
  - cbn [forallb] in HW. apply andb_prop in HW. destruct HW as [Hw _].
    assert (E : isDigitOrDot w = false) by char_cases.
    rewrite E. reflexivity.
Qed.

(** [/([\d.]+)\s*hrs?/] on a token that starts with digits and periods,
    white space and "hr". *)
Lemma hrRe_leading R W b :
  R <> [] -> forallb isDigitOrDot R = true -> forallb isSpace W = true ->
  exists m, matchRe (R ++ W ++ js "hr" ++ b) hrRe = Some m /\
            group 1 m = Some R.
Proof.
  intros Hne HR HW.
  assert (Hsp : span isDigitOrDot (W ++ js "hr" ++ b) = 0)
    by (apply space_then_unit_stop'; [exact HW | reflexivity]).
  assert (HlenR : 1 <= List.length R) by (destruct R; simpl; [contradiction | lia]).
  destruct (run_greedy_head 0 isSpace (0 + List.length R) W (js "hr" ++ b)
              [(1, R)] HW eq_refl (Nat.le_0_l _)) as [l2 E2].
  destruct (run_optional_head (Some 1) (eqc (ch "s"))
              (MState (0 + List.length R + List.length W +
                       List.length (js "hr")) b [(1, R)])) as [k [l3 E3]].
  eexists. split.
  - apply matchRe_at_0. unfold hrRe, start.
    rewrite run_Cat, run_Grp_Rep. cbn [rest idx got].
    rewrite counts_greedy_head; rewrite (span_app_stop _ _ _ HR Hsp);
      [|exact HlenR].
    cbn [List.map]. rewrite skipn_app_exact, firstn_app_exact.
    apply hd_flat_map_head. rewrite run_Cat, E2.
    apply hd_flat_map_head. rewrite run_Cat.
    rewrite run_Lit_hit; [|discriminate].
    apply hd_flat_map_head. rewrite E3. reflexivity.
  - reflexivity.
Qed.

Lemma unit_not_numeric R W u b :
  isDigitOrDot u = false ->
  isSome (matchRe (R ++ W ++ u :: b) numericRe) = false.
Proof.
  intros Hu. destruct (matchRe _ numericRe) as [m|] eqn:E; [|reflexivity].
  apply numeric_chars in E. rewrite !forallb_app in E. cbn [forallb] in E.
  rewrite Hu in E. cbn [andb] in E. rewrite !andb_false_r in E.
  discriminate.
Qed.

(** The second and third branches of the conditional on tokens whose
    leading run is followed by the unit. *)
Lemma resolveMinutes_min D W b :
  D <> [] -> forallb isDigit D = true -> forallb isSpace W = true ->
  resolveMinutes (D ++ W ++ js "min" ++ b) =
  ofDecimal false (digitsValue D) 0.
Proof.
  intros Hne HD HW. unfold resolveMinutes.
  assert (Hi : includes (D ++ W ++ js "min" ++ b) (js "min") = true).
  { rewrite app_assoc. apply includes_mid. }
  rewrite Hi. cbn [negb]. rewrite andb_false_r.
  destruct (minRe_leading D W b Hne HD HW) as [m [-> ->]].
  cbn [toStr]. apply parseInt_digits; assumption.
Qed.

Lemma resolveMinutes_hr R W b :
  R <> [] -> forallb isDigitOrDot R = true -> forallb isSpace W = true ->
  includes (R ++ W ++ js "hr" ++ b) (js "min") = false ->
  resolveMinutes (R ++ W ++ js "hr" ++ b) = mul (parseFloat R) (num 60).
Proof.
  intros Hne HR HW Hmin. unfold resolveMinutes.
  rewrite Hmin.
  pose proof (unit_not_numeric R W 104%N (js "r" ++ b) eq_refl) as Hnum.
  change (104%N :: js "r" ++ b) with (js "hr" ++ b) in Hnum.
  rewrite Hnum. cbn [andb].
  assert (Hi : includes (R ++ W ++ js "hr" ++ b) (js "hr") = true).
  { rewrite app_assoc. apply includes_mid. }
  rewrite Hi.
  destruct (hrRe_leading R W b Hne HR HW) as [m [-> ->]].
  reflexivity.
Qed.

Lemma leadingDigits_run D W u b :
  forallb isDigit D = true -> forallb isSpace W = true ->
  isDigit u = false -> leadingDigits (D ++ W ++ u :: b) = D.
Proof.
  intros HD HW Hu. unfold leadingDigits.
  rewrite takeWhile_span,
    (span_app_stop _ _ _ HD (space_then_unit_stop W u b HW Hu)).
  apply firstn_app_exact.
Qed.

(** C6, as the code has it. For an activity whose token contains "min" and
    whose leading integer run is followed, after optional white space, by
    "min", the minutes are the value of that run. For an activity whose token
    has no "min", contains "hr", and whose leading run of digits and periods
    is followed, after optional white space, by "hr", the minutes are the
    value of that run times 60. The tokens "45 min", "1.5 hrs" and "90 mins"
    resolve to 45, 90 and 90 minutes. *)
Theorem unit_token_minutes :
  (forall (today text : str) (note : Note) (a : Activity) (D W b : str),
      parseAndStructure today text = Ok note ->
      In a (activities note) ->
      timeStr a = D ++ W ++ js "min" ++ b ->
      D <> [] -> forallb isDigit D = true -> forallb isSpace W = true ->
      leadingDigits (timeStr a) = D /\ minutes a = parseInt D) /\
  (forall (today text : str) (note : Note) (a : Activity) (R W b : str),
      parseAndStructure today text = Ok note ->
      In a (activities note) ->
      timeStr a = R ++ W ++ js "hr" ++ b ->
      R <> [] -> forallb isDigitOrDot R = true -> forallb isSpace W = true ->
      includes (timeStr a) (js "min") = false ->
      minutes a = mul (parseFloat R) (num 60)) /\
  resolveMinutes (js "45 min") = num 45 /\
  resolveMinutes (js "1.5 hrs") = num 90 /\
  resolveMinutes (js "90 mins") = num 90.
Proof.
  split; [|split; [|repeat split; vm_compute; reflexivity]].
  - intros today text note a D W b E Ha Ht Hne HD HW.
    destruct (activities_resolved today text note a E Ha) as [-> _].
    rewrite Ht. split.
    + apply (leadingDigits_run D W 109%N (js "in" ++ b) HD HW eq_refl).
    + rewrite (parseInt_digits D Hne HD).
      apply resolveMinutes_min; assumption.
  - intros today text note a R W b E Ha Ht Hne HR HW Hmin.
    destruct (activities_resolved today text note a E Ha) as [-> _].
    rewrite Ht in *. apply resolveMinutes_hr; assumption.
Qed.

Lemma unit_token_minutes_witness :
  let text := js "Ann B 3/15/24" ++ nl ++ js "1. Meet - 45 min" ++ nl ++
              js "2. Visit - 1.5 hrs" in
  let a1 := mkActivity (js "Meet") (js "45 min") (num 45) in
  let a2 := mkActivity (js "Visit") (js "1.5 hrs") (num 90) in
  let note := mkNote (js "Ann B") (js "3/15/24") [a1; a2]
                     (div (num 135) (num 60)) (num 135) in
  parseAndStructure (js "11/1/2026") text = Ok note /\
  (leadingDigits (timeStr a1) = js "45" /\ minutes a1 = parseInt (js "45")) /\
  minutes a2 = mul (parseFloat (js "1.5")) (num 60).
Proof.
  intros text a1 a2 note.
  assert (E : parseAndStructure (js "11/1/2026") text = Ok note)
    by (vm_compute; reflexivity).
  split; [exact E|]. split.
  - apply (proj1 unit_token_minutes (js "11/1/2026") text note a1
             (js "45") (js " ") [] E (or_introl eq_refl) eq_refl);
      [discriminate | reflexivity | reflexivity].
  - apply (proj1 (proj2 unit_token_minutes) (js "11/1/2026") text note a2
             (js "1.5") (js " ") (js "s") E (or_intror (or_introl eq_refl))
             eq_refl); [discriminate | reflexivity | reflexivity |].
    vm_compute. reflexivity.
Defined.

(** C6 as stated fails: in "2 hrs 30 min" the leading integer run is "2",
    yet [/(\d+)\s*min/] finds the run next to "min" and the activity gets 30
    minutes; in "5 x min" no run is next to "min" and it gets 0. *)
Lemma leading_run_counterexample :
  let t := js "2 hrs 30 min" in
  let text := js "Ann B 3/15/24" ++ nl ++ js "1. Visit - 2 hrs 30 min" in
  isSome (matchRe t numericRe) = false /\
  includes t (js "min") = true /\
  leadingDigits t = js "2" /\
  parseInt (leadingDigits t) = num 2 /\
  resolveMinutes t = num 30 /\
  resolveMinutes t <> parseInt (leadingDigits t) /\
  parseAndStructure (js "11/1/2026") text =
  Ok (mkNote (js "Ann B") (js "3/15/24")
             [mkActivity (js "Visit") t (num 30)]
             (div (num 30) (num 60)) (num 30)) /\
  leadingDigits (js "5 x min") = js "5" /\
  resolveMinutes (js "5 x min") = num 0.
Proof.
  repeat split; try (vm_compute; reflexivity).
  vm_compute. discriminate.
Qed.

(** ** The split of a numbered line *)

Lemma span_decompose p (s : str) :
  forallb p s = false ->
  exists a x b, s = a ++ x :: b /\ forallb p a = true /\ p x = false.
Proof.
  induction s as [|c s IH]; cbn [forallb]; [discriminate|].
  destruct (p c) eqn:Hc; cbn [andb]; intros H.
  - destruct (IH H) as [a [x [b [-> [Ha Hx]]]]].
    exists (c :: a), x, b. cbn [forallb app]. rewrite Hc, Ha. auto.
  - exists [], c, s. auto.
Qed.

Lemma forallb_skipn (p : char -> bool) k (s : str) :
  forallb p s = true -> forallb p (skipn k s) = true.
Proof.
  intros H. rewrite <- (firstn_skipn k s), forallb_app in H.
  apply andb_prop in H. tauto.
Qed.

Lemma dropWhile_app_all p a s :
  forallb p a = true -> dropWhile p (a ++ s) = dropWhile p s.
Proof.
  induction a as [|x a IH]; cbn [forallb app dropWhile]; [reflexivity|].
  intros H. apply andb_prop in H. destruct H as [Hx Ha]. rewrite Hx.
  exact (IH Ha).
Qed.

Lemma trim_app_space a s : forallb isSpace a = true -> trim (a ++ s) = trim s.
Proof.
  intros H. unfold trim, trimStart. rewrite (dropWhile_app_all _ _ _ H).
  reflexivity.
Qed.

Lemma rev_seq_0 n : rev (seq 0 (S n)) = n :: rev (seq 0 n).
Proof.
  pose proof (rev_seq_top 0 n (Nat.le_0_l n)) as H.
  rewrite !Nat.sub_0_r in H. exact H.
Qed.

(** [(.+)$]: the group takes the input left, which has to be non-empty and
    free of line terminators. *)
Lemma token_to_end i (q : str) c :
  q <> [] -> forallb isDot q = true ->
  run (Grp 2 (plus isDot) ;; Eol) (MState i q c) =
  [MState (i + List.length q) [] ((2, q) :: c)].
Proof.
  intros Hne Hq.
  assert (Hlen : 1 <= List.length q) by (destruct q; simpl; [contradiction | lia]).
  rewrite run_Cat, run_Grp_Rep. cbn [idx rest got].
  rewrite counts_greedy_head; rewrite (span_all _ _ Hq); [|exact Hlen].
  cbn [List.map flat_map]. rewrite skipn_all, firstn_all. cbn [run rest].
  rewrite flat_map_all_nil; [reflexivity|].
  intros st Hst. apply in_map_iff in Hst. destruct Hst as [k [<- Hk]].
  apply in_rev, in_seq in Hk. cbn [run rest].
  destruct (skipn k q) eqn:E; [|reflexivity].
  pose proof (length_skipn k q) as L. rewrite E in L. simpl in L. lia.
Qed.

Lemma token_missing i c :
  run (Grp 2 (plus isDot) ;; Eol) (MState i [] c) = [].
Proof. reflexivity. Qed.

(** [\s*(.+)$] on the text after the dash: the group is that text without
    its leading white space, or its last character when it is all white
    space; either way it trims to the trimmed text. *)
Lemma time_token_path i (post : str) c :
  post <> [] -> forallb isDot post = true ->
  exists g2 j,
    hd_error (run (star isSpace ;; Grp 2 (plus isDot) ;; Eol)
                  (MState i post c)) =
    Some (MState j [] ((2, g2) :: c)) /\
    trim g2 = trim post.
Proof.
  intros Hne Hdot. destruct (forallb isSpace post) eqn:Hsp.
  - destruct (exists_last Hne) as [t [z ->]].
    rewrite forallb_app in Hsp, Hdot. cbn [forallb] in Hsp, Hdot.
    rewrite !andb_true_r in Hsp, Hdot.
    apply andb_prop in Hsp. destruct Hsp as [Ht Hz].
    apply andb_prop in Hdot. destruct Hdot as [_ Hzd].
    exists [z], (i + List.length t + 1). split.
    + rewrite run_Cat, run_Rep. cbn [rest].
      assert (Hall : forallb isSpace (t ++ [z]) = true).
      { rewrite forallb_app, Ht. cbn. rewrite Hz. reflexivity. }
      rewrite counts_greedy, (span_all _ _ Hall), length_app.
      cbn [List.length]. rewrite Nat.sub_0_r.
      replace (S (List.length t + 1)) with (S (S (List.length t))) by lia.
      rewrite !rev_seq_0. cbn [List.map].
      apply (hd_flat_map_skip _ [advance (MState i (t ++ [z]) c)
                                         (S (List.length t))]).
      * intros y [<-|[]]. unfold advance. cbn [idx rest got].
        replace (S (List.length t)) with (List.length (t ++ [z]))
          by (rewrite length_app; simpl; lia).
        rewrite skipn_all. apply token_missing.
      * unfold advance. cbn [idx rest got]. rewrite skipn_app_exact.
        rewrite token_to_end; [reflexivity | discriminate |].
        cbn. rewrite Hzd. reflexivity.
    + rewrite (trim_all_space (t ++ [z])).
      * apply trim_all_space. cbn. rewrite Hz. reflexivity.
      * rewrite forallb_app, Ht. cbn. rewrite Hz. reflexivity.
  - destruct (span_decompose isSpace post Hsp) as [a [x [b [-> [Ha Hx]]]]].
    rewrite forallb_app in Hdot. apply andb_prop in Hdot.
    destruct Hdot as [_ Hxb].
    exists (x :: b), (i + List.length a + List.length (x :: b)). split.
    + rewrite run_Cat.
      destruct (run_greedy_head 0 isSpace i a (x :: b) c Ha
                  (span_stop _ _ _ Hx) (Nat.le_0_l _)) as [l ->].
      apply hd_flat_map_head.
      rewrite token_to_end; [reflexivity | discriminate | exact Hxb].
    + symmetry. apply trim_app_space. exact Ha.
Qed.

(** [\s*[-–]] cannot be matched in front of a text that has a character
    other than white space and no dash. *)
Lemma dash_unreachable (r' X : str) i c r :
  forallb isSpace r' = false -> forallb notDash r' = true ->
  run (star isSpace ;; Cls isDash ;; r) (MState i (r' ++ X) c) = [].
Proof.
  intros Hsp Hnd.
  destruct (span_decompose isSpace r' Hsp) as [a [x [b [-> [Ha Hx]]]]].
  rewrite forallb_app in Hnd. apply andb_prop in Hnd.
  destruct Hnd as [_ Hnd]. cbn [forallb] in Hnd.
  apply andb_prop in Hnd. destruct Hnd as [Hxd _].
  unfold notDash in Hxd. apply negb_true_iff in Hxd.
  rewrite <- app_assoc. cbn [app].
  rewrite (run_greedy_then isSpace isDash 0 r i a x (b ++ X) c
             space_not_dash Ha Hx).
  rewrite Hxd, andb_false_r. reflexivity.
Qed.

Lemma skipn_app_short {A} k (a b : list A) :
  k <= List.length a -> skipn k (a ++ b) = skipn k a ++ b.
Proof.
  intros H. rewrite skipn_app. replace (k - List.length a) with 0 by lia.
  reflexivity.
Qed.

(** [(.+?)] followed by [\s*[-–]]: the lazy group grows until a dash
    follows; over a text without dash that ends with a character other than
    white space, it takes the whole text. *)
Lemma description_path i (body' : str) (e : char) (Y : str) c r z :
  isSpace e = false ->
  forallb isDot (body' ++ [e]) = true ->
  forallb notDash (body' ++ [e]) = true ->
  hd_error (run (star isSpace ;; Cls isDash ;; r)
                (MState (i + List.length (body' ++ [e])) Y
                        ((1, body' ++ [e]) :: c))) = Some z ->
  hd_error (run (Grp 1 (plusLazy isDot) ;; star isSpace ;; Cls isDash ;; r)
                (MState i ((body' ++ [e]) ++ Y) c)) = Some z.
Proof.
  intros He Hdot Hnd Hz. set (body := body' ++ [e]) in *.
  assert (Hlen : List.length body = S (List.length body')).
  { unfold body. rewrite length_app. simpl. lia. }
  rewrite run_Cat, run_Grp_Rep. cbn [idx rest got].
  rewrite counts_lazy, (span_app_all _ _ _ Hdot).
  rewrite (seq_split_at 1 (List.length body)
             (List.length body + span isDot Y)); [|lia|lia].
  rewrite map_app. cbn [List.map].
  apply hd_flat_map_skip.
  - intros st Hst. apply in_map_iff in Hst. destruct Hst as [k [<- Hk]].
    apply in_seq in Hk.
    rewrite skipn_app_short by lia.
    apply dash_unreachable.
    + unfold body. rewrite skipn_app_short by lia.
      rewrite forallb_app. cbn. rewrite He. apply andb_false_r.
    + apply forallb_skipn. exact Hnd.
  - rewrite skipn_app_exact, firstn_app_exact. exact Hz.
Qed.

Lemma marker_matches (D b : str) :
  D <> [] -> forallb isDigit D = true ->
  isSome (matchRe (D ++ ch "." :: b) markerRe) = true.
Proof.
  intros Hne HD. unfold markerRe. rewrite matchRe_anchored.
  assert (Hlen : 1 <= List.length D) by (destruct D; simpl; [contradiction | lia]).
  destruct (run_greedy_head 1 isDigit 0 D (ch "." :: b) [] HD eq_refl Hlen)
    as [l E].
  rewrite run_Cat. unfold start. rewrite E. cbn [flat_map run rest].
  change (eqc (ch ".") (ch ".")) with true. reflexivity.
Qed.

(** The match of [activityRe] on a numbered line whose text before the first
    dash is not blank. *)
Lemma activity_split (D pre : str) (d : char) (post : str) :
  D <> [] -> forallb isDigit D = true ->
  forallb notDash pre = true -> isDash d = true ->
  trim pre <> [] ->
  forallb isDot pre = true -> forallb isDot post = true -> post <> [] ->
  exists m g2,
    matchRe (D ++ ch "." :: pre ++ d :: post) activityRe = Some m /\
    group 1 m = Some (trim pre) /\ group 2 m = Some g2 /\
    trim g2 = trim post.
Proof.
  intros Hne HD Hnd Hd Hbody Hdot Hpost Hpne.
  destruct (trim_split pre) as [W [W1 [Epre [HW HW1]]]].
  destruct (trim_last pre) as [E|[body' [e [Elast He]]]]; [contradiction|].
  destruct (trim_head pre) as [E|[c0 [t0 [Ehead Hc0]]]]; [contradiction|].
  generalize dependent (trim pre). intros body _ Epre Elast Ehead.
  subst pre.
  assert (Hlen : 1 <= List.length D)
    by (destruct D; simpl; [contradiction | lia]).
  rewrite !forallb_app in Hnd, Hdot.
  apply andb_prop in Hnd. destruct Hnd as [_ Hnd].
  apply andb_prop in Hnd. destruct Hnd as [Hnd _].
  apply andb_prop in Hdot. destruct Hdot as [_ Hdot].
  apply andb_prop in Hdot. destruct Hdot as [Hdot _].
  rewrite <- !app_assoc.
  set (i3 := 0 + S (List.length D) + List.length W).
  set (Y := W1 ++ d :: post).
  (* the time token *)
  destruct (time_token_path (i3 + List.length body + S (List.length W1)) post
              [(1, body)] Hpne Hpost) as [g2 [j [H6 Htrim]]].
  (* the dash *)
  assert (H5 : hd_error
                 (run (star isSpace ;; Cls isDash ;; star isSpace ;;
                       Grp 2 (plus isDot) ;; Eol)
                      (MState (i3 + List.length body) Y [(1, body)])) =
               Some (MState j [] [(2, g2); (1, body)])).
  { unfold Y.
    rewrite (run_greedy_then isSpace isDash 0 _ _ W1 d post _
               space_not_dash HW1 (dash_not_space d Hd)).
    rewrite Hd. cbn [Nat.leb andb]. exact H6. }
  (* the description *)
  assert (H4 : hd_error
                 (run (Grp 1 (plusLazy isDot) ;; star isSpace ;;
                       Cls isDash ;; star isSpace ;;
                       Grp 2 (plus isDot) ;; Eol)
                      (MState i3 (body ++ Y) [])) =
               Some (MState j [] [(2, g2); (1, body)])).
  { rewrite Elast in *.
    apply (description_path i3 body' e Y [] _ _ He Hdot Hnd H5). }
  (* the white space after the marker *)
  assert (H3 : hd_error
                 (run (star isSpace ;; Grp 1 (plusLazy isDot) ;;
                       star isSpace ;; Cls isDash ;; star isSpace ;;
                       Grp 2 (plus isDot) ;; Eol)
                      (MState (0 + S (List.length D)) (W ++ body ++ Y) [])) =
               Some (MState j [] [(2, g2); (1, body)])).
  { rewrite run_Cat.
    assert (Hstop : span isSpace (body ++ Y) = 0).
    { rewrite Ehead. cbn [app]. apply span_stop. exact Hc0. }
    destruct (run_greedy_head 0 isSpace (0 + S (List.length D)) W (body ++ Y)
                [] HW Hstop (Nat.le_0_l _)) as [l ->].
    apply hd_flat_map_head. exact H4. }
  exists (matchOf (D ++ ch "." :: W ++ body ++ Y)
                  (MState j [] [(2, g2); (1, body)])), g2.
  split; [|split; [reflexivity | split; [reflexivity | exact Htrim]]].
  unfold activityRe. rewrite matchRe_anchored. unfold start.
  rewrite (run_greedy_then isDigit (eqc (ch ".")) 1 _ 0 D (ch ".")
             (W ++ body ++ Y) [] digit_not_period HD eq_refl).
  destruct (Nat.leb_spec 1 (List.length D)) as [_|Hlt]; [|lia].
  change (eqc (ch ".") (ch ".")) with true. cbn [andb].
  rewrite H3. reflexivity.
Qed.

(** C9, as the code has it. On a numbered line with more than one dash,
    without CR, LS or PS, whose text between the marker and the first dash is
    not blank, the split is at the first dash: the description is the trimmed
    text before it and the time token the whole trimmed text after it, later
    dashes included. *)
Theorem split_at_first_dash :
  forall (D pre : str) (d : char) (post : str)
         (acc : list Activity * number),
    D <> [] -> forallb isDigit D = true ->
    forallb notDash pre = true -> isDash d = true ->
    existsb isDash post = true ->
    trim pre <> [] ->
    forallb isDot pre = true -> forallb isDot post = true ->
    parseLine acc (D ++ ch "." :: pre ++ d :: post) =
    Ok (fst acc ++ [mkActivity (trim pre) (trim post)
                               (resolveMinutes (trim post))],
        add (snd acc) (resolveMinutes (trim post))).
Proof.
  intros D pre d post [acts total] Hne HD Hnd Hd Hmore Hbody Hdot Hpost.
  assert (Hpne : post <> []) by (intros ->; discriminate Hmore).
  unfold parseLine.
  rewrite (marker_matches D (pre ++ d :: post) Hne HD).
  destruct (activity_split D pre d post Hne HD Hnd Hd Hbody Hdot Hpost Hpne)
    as [m [g2 [-> [-> [-> Htrim]]]]].
  cbn [trimOf bind]. rewrite trim_trim, Htrim. reflexivity.
Qed.

(** The line of the example: the token keeps the second dash, and as it does
    not start with a number and holds neither "min" nor "hr", its minutes
    come from the last branch. *)
Lemma split_at_first_dash_witness :
  parseLine ([], num 0)
            (js "1. Hospital visit - reviewed discharge planning - 90") =
  Ok ([mkActivity (js "Hospital visit")
                  (js "reviewed discharge planning - 90")
                  (resolveMinutes (js "reviewed discharge planning - 90"))],
      add (num 0) (resolveMinutes (js "reviewed discharge planning - 90"))) /\
  (isSome (matchRe (js "reviewed discharge planning - 90") numericRe)
   || includes (js "reviewed discharge planning - 90") (js "min")
   || includes (js "reviewed discharge planning - 90") (js "hr"))%bool = false.
Proof.
  split; [|vm_compute; reflexivity].
  pose proof (split_at_first_dash
                (js "1") (js " Hospital visit ") 45%N
                (js " reviewed discharge planning - 90") ([], num 0)
                ltac:(discriminate) eq_refl eq_refl eq_refl eq_refl
                ltac:(vm_compute; discriminate) eq_refl eq_refl) as H.
  vm_compute in H. vm_compute. exact H.
Defined.

(** C9 as stated fails on a line whose first dash comes right after the
    marker: [(.+?)] needs a character, takes the dash, and the split is at
    the second dash. It also fails when a CR follows the first dash: [(.+)]
    cannot cross it, and the split moves to a later dash. *)
Lemma split_at_first_dash_counterexample :
  parseLine ([], num 0) (js "1. - a - 5") =
  Ok ([mkActivity (js "- a") (js "5") (num 300)], num 300) /\
  parseLine ([], num 0) (js "1. a - b " ++ [13%N] ++ js "- 5") =
  Ok ([mkActivity (js "a - b") (js "5") (num 300)], num 300).
Proof. split; vm_compute; reflexivity. Qed.

(** ** The header *)

Lemma date_captures st st1 :
  In st1 (run (upto 1 2 isDigit ;; Cls (eqc (ch "/")) ;;
               upto 1 2 isDigit ;; Cls (eqc (ch "/")) ;;
               upto 2 4 isDigit) st) ->
  consumed st st1 <> [].
Proof.
  intros H. apply in_run_Cat in H. destruct H as [st0 [H0 H1]].
  apply in_run_Rep in H0. destruct H0 as [k [-> [L [K _]]]].
  destruct (run_within anyChar _ (within_any _) _ _ H1)
    as [k' [I [_ _]]].
  unfold consumed. rewrite I. unfold advance. cbn [idx].
  apply firstn_nonempty; [lia|].
  pose proof (span_le_length isDigit (rest st)). lia.
Qed.

(** A date token captured from the header is not empty. *)
Lemma headerDate_nonempty text d : headerDate text = Some d -> d <> [].
Proof.
  unfold headerDate.
  destruct (matchRe (firstLineOf text) headerRe) as [m|] eqn:E;
    [|discriminate].
  apply (matchRe_group 2 (fun d => d <> []) headerRe (firstLineOf text) m d
           ltac:(discriminate)); [|exact E].
  unfold headerRe. cbn [grpBody Nat.eqb].
  repeat split; try exact I. apply date_captures.
Qed.

(** C8. When the header line carries a date token, the current date is not
    used: two runs of the parser on the same text, whatever the clock says,
    return the same client name, the same date (the token) and the same
    activities. *)
Theorem parse_twice_same :
  forall (today1 today2 text d : str),
    headerDate text = Some d ->
    exists n1 n2 : Note,
      parseAndStructure today1 text = Ok n1 /\
      parseAndStructure today2 text = Ok n2 /\
      clientName n1 = clientName n2 /\
      date n1 = date n2 /\ date n1 = d /\
      activities n1 = activities n2.
Proof.
  intros today1 today2 text d Hd.
  destruct (parseAndStructure_ok today1 text)
    as [name1 [acts1 [t1 [N1 [L1 E1]]]]].
  destruct (parseAndStructure_ok today2 text)
    as [name2 [acts2 [t2 [N2 [L2 E2]]]]].
  rewrite N1 in N2. injection N2 as <-.
  rewrite L1 in L2. injection L2 as <- <-.
  rewrite Hd in E1, E2.
  assert (Ht : truthy d = true).
  { pose proof (headerDate_nonempty text d Hd). destruct d;
      [contradiction | reflexivity]. }
  rewrite Ht in E1, E2.
  eexists. eexists. split; [exact E1|]. split; [exact E2|].
  repeat split.
Qed.

Lemma parse_twice_same_witness :
  let text := js "Ann B 3/15/24" ++ nl ++ js "1. Call - 75" in
  exists n1 n2 : Note,
    parseAndStructure (js "11/1/2026") text = Ok n1 /\
    parseAndStructure (js "11/2/2026") text = Ok n2 /\
    clientName n1 = clientName n2 /\
    date n1 = date n2 /\ date n1 = js "3/15/24" /\
    activities n1 = activities n2.
Proof.
  intros text.
  apply (parse_twice_same (js "11/1/2026") (js "11/2/2026") text
           (js "3/15/24")).
  vm_compute. reflexivity.
Defined.

(** C5 on the code: a first line made of white space and a date matches the
    header pattern with a group 1 that is all white space, and the client
    name is the empty string, not the placeholder. *)
Theorem blank_name_before_date :
  parseAndStructure (js "11/1/2026")
                    (js "  3/15/24" ++ nl ++ js "1. Call - 75") =
  Ok (mkNote [] (js "3/15/24")
             [mkActivity (js "Call") (js "75") (num 75)]
             (div (num 75) (num 60)) (num 75)).
Proof. vm_compute. reflexivity. Qed.

(** C2 on the code: a token without "min" or "hr" from which no number can
    be read reaches the last branch, where the NaN of [parseFloat] is
    compared and multiplied: the activity is kept, with NaN minutes, and the
    total is NaN. With "min" or "hr" in the token the minutes stay 0. *)
Theorem unread_token_gives_nan :
  parseAndStructure (js "11/1/2026")
                    (js "Ann B 3/15/24" ++ nl ++ js "1. Walk - soon") =
  Ok (mkNote (js "Ann B") (js "3/15/24")
             [mkActivity (js "Walk") (js "soon") nan] nan nan) /\
  resolveMinutes (js "few min") = num 0 /\
  resolveMinutes (js "an hr") = num 0.
Proof. repeat split; vm_compute; reflexivity. Qed.

(** * Further properties of the parser *)

(** ** The lines of a text *)

Lemma split_nonempty sep s : split sep s <> [].
Proof.
  destruct s as [|c s]; cbn [split]; [discriminate|].
  destruct (eqc c sep); [discriminate|].
  destruct (split sep s); discriminate.
Qed.

Lemma split_app sep (a b : str) :
  split sep (a ++ sep :: b) = split sep a ++ split sep b.
Proof.
  induction a as [|c a IH]; cbn [app split].
  - unfold eqc. rewrite N.eqb_refl. reflexivity.
  - destruct (eqc c sep); [rewrite IH; reflexivity|].
    rewrite IH. pose proof (split_nonempty sep a) as Hne.
    destruct (split sep a) as [|l ls]; [contradiction | reflexivity].
Qed.

(** X1. The lines of two texts joined by a newline are the lines of the
    first followed by the lines of the second: what [split] and [filter]
    keep of a text does not depend on the text around it. *)
Theorem linesOf_join :
  forall a b : str, linesOf (a ++ nl ++ b) = linesOf a ++ linesOf b.
Proof.
  intros a b. unfold linesOf, nl. cbn [app].
  rewrite split_app. apply filter_app.
Qed.

Lemma split_blank sep (w : str) :
  forallb isSpace w = true ->
  forallb (forallb isSpace) (split sep w) = true.
Proof.
  induction w as [|c w IH]; cbn [forallb split]; [reflexivity|].
  intros H. apply andb_prop in H. destruct H as [Hc Hw].
  specialize (IH Hw). destruct (eqc c sep); [exact IH|].
  destruct (split sep w) as [|l ls]; cbn [forallb] in *.
  - rewrite Hc. reflexivity.
  - rewrite Hc. exact IH.
Qed.

Lemma linesOf_blank (w : str) : forallb isSpace w = true -> linesOf w = [].
Proof.
  intros H. unfold linesOf. pose proof (split_blank 10%N w H) as Hs.
  induction (split 10%N w) as [|l ls IH]; [reflexivity|].
  cbn [forallb] in Hs. apply andb_prop in Hs. destruct Hs as [Hl Hls].
  cbn [filter]. rewrite (trim_all_space l Hl). cbn [truthy].
  exact (IH Hls).
Qed.

(** The parser reads its text through its non-blank lines only. *)
Lemma parse_same_lines today t1 t2 :
  linesOf t1 = linesOf t2 ->
  parseAndStructure today t1 = parseAndStructure today t2.
Proof. intros H. unfold parseAndStructure. rewrite H. reflexivity. Qed.



(** X3. Blank lines do not count: a run of white space between two lines,
    before the first line or after the last one leaves the result as it
    is. *)
Theorem blank_lines_ignored :
  forall today a w b : str,
    forallb isSpace w = true ->
    parseAndStructure today (a ++ nl ++ w ++ nl ++ b) =
    parseAndStructure today (a ++ nl ++ b) /\
    parseAndStructure today (w ++ nl ++ b) = parseAndStructure today b /\
    parseAndStructure today (a ++ nl ++ w) = parseAndStructure today a.
Proof.
  intros today a w b H. pose proof (linesOf_blank w H) as Hw.
  repeat split; apply parse_same_lines.
  - unfold linesOf, nl in *. cbn [app].
    rewrite !split_app, !filter_app, Hw. reflexivity.
  - unfold linesOf, nl in *. cbn [app].
    rewrite split_app, filter_app, Hw. reflexivity.
  - unfold linesOf, nl in *. cbn [app].
    rewrite split_app, filter_app, Hw. apply app_nil_r.
Qed.

Lemma blank_lines_ignored_witness :
  let a := js "Ann B 3/15/24" in
  let b := js "1. Call - 75" in
  parseAndStructure (js "11/1/2026") (a ++ nl ++ js "  " ++ nl ++ b) =
  parseAndStructure (js "11/1/2026") (a ++ nl ++ b) /\
  parseAndStructure (js "11/1/2026") (js "  " ++ nl ++ b) =
  parseAndStructure (js "11/1/2026") b /\
  parseAndStructure (js "11/1/2026") (a ++ nl ++ js "  ") =
  parseAndStructure (js "11/1/2026") a.
Proof.
  intros a b.
  apply (blank_lines_ignored (js "11/1/2026") a (js "  ") b). reflexivity.
Defined.

(** ** The header line *)

Lemma header_digit_first (c : char) (l : str) :
  isDigit c = true -> matchRe (c :: l) headerRe = None.
Proof.
  intros H. unfold headerRe. rewrite matchRe_anchored.
  rewrite run_Cat, run_Grp_Rep. unfold start. cbn [rest].
  rewrite counts_lazy. cbn [span]. unfold notDigit at 1. rewrite H.
  reflexivity.
Qed.

(** X4. When the first non-blank line starts with a digit, the header
    pattern fails: the client is "Client" and the date is the current
    date. *)
Theorem header_digit_first_default :
  forall (today text : str) (c : char) (l : str),
    firstLineOf text = c :: l ->
    isDigit c = true ->
    exists note : Note,
      parseAndStructure today text = Ok note /\
      clientName note = js "Client" /\ date note = today.
Proof.
  intros today text c l Hl Hc.
  destruct (parseAndStructure_ok today text) as [n [a [t [N [_ E]]]]].
  unfold headerDate in E.
  rewrite Hl, (header_digit_first c l Hc) in *.
  injection N as <-. eexists. split; [exact E|]. split; reflexivity.
Qed.

Lemma header_digit_first_default_witness :
  exists note : Note,
    parseAndStructure (js "11/1/2026")
                      (js "3/15/24 Ann B" ++ nl ++ js "1. Call - 75") =
    Ok note /\
    clientName note = js "Client" /\ date note = js "11/1/2026".
Proof.
  apply (header_digit_first_default (js "11/1/2026") _ 51%N
           (js "/15/24 Ann B")); reflexivity.
Defined.

Lemma span_inside p (a b : str) :
  forallb p a = false ->
  span p (a ++ b) = span p a /\ span p a < List.length a.
Proof.
  induction a as [|c a IH]; cbn [forallb app span List.length];
    intros H; [discriminate|].
  destruct (p c) eqn:Hc; cbn [andb] in H.
  - destruct (IH H) as [E L]. rewrite E. split; [reflexivity | lia].
  - split; [reflexivity | lia].
Qed.

Lemma forallb_nth (p : char -> bool) (s : str) k y :
  forallb p s = true -> nth_error s k = Some y -> p y = true.
Proof.
  intros H Hn. apply nth_error_In in Hn.
  rewrite forallb_forall in H. exact (H y Hn).
Qed.

Lemma run_Opt r st : run (Opt r) st = run r st ++ [st].
Proof. reflexivity. Qed.

(** The date token needs a digit at its head. *)
Lemma date_needs_digit i (s : str) c :
  span isDigit s = 0 -> run (Grp 2 dateRe) (MState i s c) = [].
Proof.
  intros H. unfold dateRe. rewrite run_Grp, run_Cat, run_Rep.
  cbn [rest]. unfold counts. rewrite H. reflexivity.
Qed.

Lemma notDigit_span_0 (s : str) :
  forallb notDigit s = true -> span isDigit s = 0.
Proof.
  destruct s as [|x s]; cbn [forallb span]; [reflexivity|].
  intros H. apply andb_prop in H. destruct H as [Hx _].
  unfold notDigit in Hx. apply negb_true_iff in Hx. rewrite Hx. reflexivity.
Qed.

(** [\s+(date)] finds nothing in a text without digits. *)
Lemma optional_date_nodigit i (s : str) c :
  forallb notDigit s = true ->
  run (plus isSpace ;; Grp 2 dateRe) (MState i s c) = [].
Proof.
  intros H. rewrite run_Cat. apply flat_map_all_nil. intros st Hst.
  apply in_run_Rep in Hst. destruct Hst as [k [-> _]].
  unfold advance. cbn [idx rest got]. apply date_needs_digit.
  apply notDigit_span_0, forallb_skipn, H.
Qed.

(** Nor in front of a text [r'] that has no digit and a character other
    than white space, whatever follows. *)
Lemma optional_date_blocked i (r' Y : str) c :
  forallb isSpace r' = false -> forallb notDigit r' = true ->
  run (plus isSpace ;; Grp 2 dateRe) (MState i (r' ++ Y) c) = [].
Proof.
  intros Hsp Hnd. rewrite run_Cat. apply flat_map_all_nil. intros st Hst.
  apply in_run_Rep in Hst. destruct Hst as [k [-> [_ [Hk _]]]].
  cbn [rest] in Hk. destruct (span_inside isSpace r' Y Hsp) as [E L].
  rewrite E in Hk.
  unfold advance. cbn [idx rest got]. apply date_needs_digit.
  destruct (nth_error r' k) as [y|] eqn:Hy.
  - assert (Hy' : nth_error (r' ++ Y) k = Some y).
    { rewrite nth_error_app1 by lia. exact Hy. }
    rewrite (skipn_nth k _ y Hy'). apply span_stop.
    pose proof (forallb_nth notDigit r' k y Hnd Hy) as D.
    unfold notDigit in D. apply negb_true_iff in D. exact D.
  - apply nth_error_None in Hy. lia.
Qed.

(** The end of the header pattern, [(?:\s+(date))?$], on a text without
    digits: it matches at the end of the input only. *)
Lemma header_tail_nodigit i (s : str) c :
  forallb notDigit s = true ->
  run (Opt (plus isSpace ;; Grp 2 dateRe) ;; Eol) (MState i s c) =
  match s with
  | [] => [MState i [] c]
  | _ :: _ => []
  end.
Proof.
  intros H. rewrite run_Cat, run_Opt, (optional_date_nodigit i s c H).
  destruct s; reflexivity.
Qed.

Lemma header_tail_blocked i (r' Y : str) c :
  forallb isSpace r' = false -> forallb notDigit r' = true ->
  run (Opt (plus isSpace ;; Grp 2 dateRe) ;; Eol) (MState i (r' ++ Y) c) = [].
Proof.
  intros Hsp Hnd.
  rewrite run_Cat, run_Opt, (optional_date_blocked i r' Y c Hsp Hnd).
  destruct r' as [|x r']; [discriminate | reflexivity].
Qed.

(** The header pattern on a line without digits. *)
Lemma header_nodigit (l : str) :
  l <> [] -> forallb notDigit l = true ->
  exists m, matchRe l headerRe = Some m /\
            group 1 m = Some l /\ group 2 m = None.
Proof.
  intros Hne Hnd.
  assert (Hlen : 1 <= List.length l)
    by (destruct l; simpl; [contradiction | lia]).
  exists (matchOf l (MState (0 + List.length l) [] [(1, l)])).
  split; [|split; reflexivity].
  change headerRe with
    (Bol ;; Grp 1 (plusLazy notDigit) ;;
     Opt (plus isSpace ;; Grp 2 dateRe) ;; Eol).
  rewrite matchRe_anchored. unfold start.
  rewrite run_Cat, run_Grp_Rep. cbn [idx rest got].
  rewrite counts_lazy, (span_all _ _ Hnd).
  rewrite (seq_split_at 1 (List.length l) (List.length l)) by lia.
  rewrite map_app. cbn [List.map].
  rewrite (hd_flat_map_skip _ _ _ _
             (MState (0 + List.length l) [] [(1, l)])); [reflexivity| |].
  - intros st Hst. apply in_map_iff in Hst. destruct Hst as [k [<- Hk]].
    apply in_seq in Hk.
    rewrite (header_tail_nodigit _ _ _ (forallb_skipn notDigit k l Hnd)).
    destruct (skipn k l) eqn:E; [|reflexivity].
    pose proof (length_skipn k l) as L. rewrite E in L. simpl in L. lia.
  - rewrite skipn_all, firstn_all.
    rewrite (header_tail_nodigit _ [] _ eq_refl). reflexivity.
Qed.

(** X5. When the first non-blank line has no digit, the client name is that
    line, trimmed, and the date is the current date. *)
Theorem header_name_only :
  forall today text : str,
    firstLineOf text <> [] ->
    forallb notDigit (firstLineOf text) = true ->
    exists note : Note,
      parseAndStructure today text = Ok note /\
      clientName note = trim (firstLineOf text) /\ date note = today.
Proof.
  intros today text Hne Hnd.
  destruct (parseAndStructure_ok today text) as [n [a [t [N [_ E]]]]].
  destruct (header_nodigit _ Hne Hnd) as [m [Hm [G1 G2]]].
  unfold headerDate in E. rewrite Hm in *. rewrite G1 in N. rewrite G2 in E.
  injection N as <-. eexists. split; [exact E|]. split; reflexivity.
Qed.

Lemma header_name_only_witness :
  exists note : Note,
    parseAndStructure (js "11/1/2026")
                      (js " Ann B " ++ nl ++ js "1. Call - 75") = Ok note /\
    clientName note = js "Ann B" /\ date note = js "11/1/2026".
Proof.
  apply (header_name_only (js "11/1/2026")
           (js " Ann B " ++ nl ++ js "1. Call - 75"));
    [vm_compute; discriminate | reflexivity].
Defined.

Lemma digit_not_slash c : isDigit c = true -> eqc (ch "/") c = false.
Proof. intros H. char_cases. Qed.

Lemma space_not_digit c : isSpace c = true -> notDigit c = true.
Proof. intros H. unfold notDigit. char_cases. Qed.

(** A bounded greedy run of a class [p], then a class [q] that excludes
    it. *)
Lemma run_bounded_then p q lo h r i (a : str) x (b : str) c :
  (forall y, p y = true -> q y = false) ->
  forallb p a = true -> p x = false -> List.length a <= h ->
  run (Rep true lo (Some h) p ;; Cls q ;; r) (MState i (a ++ x :: b) c) =
  if (lo <=? List.length a) && q x
  then run r (MState (i + S (List.length a)) b c)
  else [].
Proof.
  intros D Ha Hx Hh.
  assert (Hsp : span p (a ++ x :: b) = List.length a).
  { apply span_app_stop; [exact Ha | apply span_stop; exact Hx]. }
  rewrite run_Cat, run_Rep. cbn [rest]. unfold counts. rewrite Hsp.
  replace (Nat.min h (List.length a)) with (List.length a) by lia.
  destruct (Nat.leb_spec lo (List.length a)) as [Hlo|Hlo]; cbn [andb].
  - rewrite (rev_seq_top lo (List.length a) Hlo). cbn [List.map flat_map].
    rewrite (flat_map_all_nil (run (Cls q ;; r))).
    + rewrite app_nil_r, run_Cat. unfold advance at 1. cbn [idx rest got].
      rewrite skipn_app_exact. cbn [run rest].
      destruct (q x); [|reflexivity].
      cbn [flat_map]. rewrite app_nil_r. unfold advance.
      cbn [idx rest got skipn].
      replace (i + List.length a + 1) with (i + S (List.length a)) by lia.
      reflexivity.
    + intros st Hst. apply in_map_iff in Hst. destruct Hst as [k [<- Hk]].
      apply in_rev, in_seq in Hk. rewrite run_Cat.
      assert (Hn : exists y, nth_error (a ++ x :: b) k = Some y).
      { destruct (nth_error (a ++ x :: b) k) eqn:E; [eexists; reflexivity|].
        apply nth_error_None in E. rewrite length_app in E. lia. }
      destruct Hn as [y Hy].
      rewrite run_Cls_miss; [reflexivity|].
      unfold advance. cbn [rest]. rewrite (skipn_nth _ _ _ Hy).
      apply D. apply (span_before p (a ++ x :: b) k y); [lia | exact Hy].
  - replace (S (List.length a) - lo) with 0 by lia. reflexivity.
Qed.

(** The date token on a text that is a date: the group takes it whole. *)
Lemma date_path i (D1 D2 D3 : str) c :
  forallb isDigit D1 = true -> 1 <= List.length D1 <= 2 ->
  forallb isDigit D2 = true -> 1 <= List.length D2 <= 2 ->
  forallb isDigit D3 = true -> 2 <= List.length D3 <= 4 ->
  let d := D1 ++ ch "/" :: D2 ++ ch "/" :: D3 in
  exists l,
    run (Grp 2 dateRe) (MState i d c) =
    MState (i + List.length d) [] ((2, d) :: c) :: l.
Proof.
  intros H1 L1 H2 L2 H3 L3 d.
  rewrite run_Grp. unfold dateRe, d.
  rewrite (run_bounded_then isDigit (eqc (ch "/")) 1 2 _ i D1 (ch "/")
             _ c digit_not_slash H1 eq_refl (proj2 L1)).
  destruct (Nat.leb_spec 1 (List.length D1)) as [_|Hlt]; [|lia].
  change (eqc (ch "/") (ch "/")) with true. cbn [andb].
  rewrite (run_bounded_then isDigit (eqc (ch "/")) 1 2 _ _ D2 (ch "/")
             _ c digit_not_slash H2 eq_refl (proj2 L2)).
  destruct (Nat.leb_spec 1 (List.length D2)) as [_|Hlt]; [|lia].
  change (eqc (ch "/") (ch "/")) with true. cbn [andb].
  rewrite run_Rep. cbn [rest]. unfold counts. rewrite (span_all _ _ H3).
  replace (Nat.min 4 (List.length D3)) with (List.length D3) by lia.
  rewrite (rev_seq_top 2 (List.length D3) (proj1 L3)).
  cbn [List.map]. eexists. f_equal.
  unfold advance, consumed. cbn [idx rest got]. rewrite skipn_all.
  assert (Hlen : List.length (D1 ++ ch "/" :: D2 ++ ch "/" :: D3) =
                 S (List.length D1) + S (List.length D2) + List.length D3).
  { rewrite length_app. cbn [List.length]. rewrite length_app.
    cbn [List.length]. lia. }
  f_equal.
  - lia.
  - f_equal. f_equal.
    replace (i + S (List.length D1) + S (List.length D2) + List.length D3 - i)
      with (List.length (D1 ++ ch "/" :: D2 ++ ch "/" :: D3)) by lia.
    apply firstn_all.
Qed.

(** The header pattern on a name, white space and a date. *)
Lemma header_name_date (n' : str) (e : char) (W D1 D2 D3 : str) :
  forallb notDigit (n' ++ [e]) = true -> isSpace e = false ->
  W <> [] -> forallb isSpace W = true ->
  forallb isDigit D1 = true -> 1 <= List.length D1 <= 2 ->
  forallb isDigit D2 = true -> 1 <= List.length D2 <= 2 ->
  forallb isDigit D3 = true -> 2 <= List.length D3 <= 4 ->
  let d := D1 ++ ch "/" :: D2 ++ ch "/" :: D3 in
  exists m, matchRe ((n' ++ [e]) ++ W ++ d) headerRe = Some m /\
            group 1 m = Some (n' ++ [e]) /\ group 2 m = Some d.
Proof.
  intros Hnd He HWne HW H1 L1 H2 L2 H3 L3 d.
  set (name := n' ++ [e]) in *.
  assert (Hname : List.length name = S (List.length n')).
  { unfold name. rewrite length_app. simpl. lia. }
  assert (HlenW : 1 <= List.length W)
    by (destruct W; simpl; [contradiction | lia]).
  assert (Hd0 : span isSpace d = 0).
  { unfold d. destruct D1 as [|x D1]; [simpl in L1; lia|].
    cbn [app]. apply span_stop. cbn [forallb] in H1.
    apply andb_prop in H1. destruct H1 as [Hx _]. char_cases. }
  destruct (date_path (0 + List.length name + List.length W) D1 D2 D3
              [(1, name)] H1 L1 H2 L2 H3 L3) as [ld Hdate].
  fold d in Hdate.
  destruct (run_greedy_head 1 isSpace (0 + List.length name) W d
              [(1, name)] HW Hd0 HlenW) as [lw Hw].
  set (final := MState (0 + List.length name + List.length W +
                        List.length d) [] [(2, d); (1, name)]).
  exists (matchOf (name ++ W ++ d) final).
  split; [|split; reflexivity].
  change headerRe with
    (Bol ;; Grp 1 (plusLazy notDigit) ;;
     Opt (plus isSpace ;; Grp 2 dateRe) ;; Eol).
  rewrite matchRe_anchored. unfold start.
  rewrite run_Cat, run_Grp_Rep. cbn [idx rest got].
  rewrite counts_lazy, (span_app_all _ _ _ Hnd).
  rewrite (seq_split_at 1 (List.length name)
             (List.length name + span notDigit (W ++ d))) by lia.
  rewrite map_app. cbn [List.map].
  rewrite (hd_flat_map_skip _ _ _ _ final); [reflexivity| |].
  - intros st Hst. apply in_map_iff in Hst. destruct Hst as [k [<- Hk]].
    apply in_seq in Hk. rewrite skipn_app_short by lia.
    apply header_tail_blocked.
    + unfold name. rewrite skipn_app_short by lia.
      rewrite forallb_app. cbn. rewrite He. apply andb_false_r.
    + apply forallb_skipn. exact Hnd.
  - rewrite skipn_app_exact, firstn_app_exact.
    rewrite run_Cat, run_Opt, flat_map_app. apply hd_error_app_some.
    rewrite run_Cat, Hw. cbn [flat_map]. rewrite Hdate.
    cbn [app flat_map run rest]. reflexivity.
Qed.

(** X6. When the first non-blank line is a name without digits that ends
    with a character other than white space, then white space, then a date
    [d/d/dd] (one or two digits, one or two digits, two to four digits), the
    client name is the trimmed name and the date is the date of the line. *)
Theorem header_name_and_date :
  forall (today text n' : str) (e : char) (W D1 D2 D3 : str),
    firstLineOf text =
    (n' ++ [e]) ++ W ++ D1 ++ ch "/" :: D2 ++ ch "/" :: D3 ->
    forallb notDigit (n' ++ [e]) = true -> isSpace e = false ->
    W <> [] -> forallb isSpace W = true ->
    forallb isDigit D1 = true -> 1 <= List.length D1 <= 2 ->
    forallb isDigit D2 = true -> 1 <= List.length D2 <= 2 ->
    forallb isDigit D3 = true -> 2 <= List.length D3 <= 4 ->
    exists note : Note,
      parseAndStructure today text = Ok note /\
      clientName note = trim (n' ++ [e]) /\
      date note = D1 ++ ch "/" :: D2 ++ ch "/" :: D3.
Proof.
  intros today text n' e W D1 D2 D3 Hl Hnd He HWne HW H1 L1 H2 L2 H3 L3.
  destruct (parseAndStructure_ok today text) as [n [a [t [N [_ E]]]]].
  destruct (header_name_date n' e W D1 D2 D3 Hnd He HWne HW H1 L1 H2 L2 H3 L3)
    as [m [Hm [G1 G2]]].
  unfold headerDate in E. rewrite Hl, Hm in *. rewrite G1 in N.
  rewrite G2 in E. injection N as <-.
  assert (Ht : truthy (D1 ++ ch "/" :: D2 ++ ch "/" :: D3) = true).
  { destruct D1; [simpl in L1; lia | reflexivity]. }
  rewrite Ht in E. eexists. split; [exact E|]. split; reflexivity.
Qed.

Lemma header_name_and_date_witness :
  exists note : Note,
    parseAndStructure (js "11/1/2026")
                      (js "Susan Johnson  3/15/24" ++ nl ++
                       js "1. Call - 75") = Ok note /\
    clientName note = js "Susan Johnson" /\ date note = js "3/15/24".
Proof.
  apply (header_name_and_date (js "11/1/2026")
           (js "Susan Johnson  3/15/24" ++ nl ++ js "1. Call - 75")
           (js "Susan Johnso") 110%N (js "  ") (js "3") (js "15") (js "24"));
    try reflexivity; try discriminate; simpl; lia.
Defined.

(** ** The loop as a whole *)

(** What a line adds does not depend on the loop state: no activity or one,
    pushed at the end, its minutes added to the total. *)
Lemma parseLine_out (line : str) :
  exists new : list Activity,
    List.length new <= 1 /\
    (forall a, In a new -> resolved a /\ trim (description a) = description a) /\
    forall acc,
      parseLine acc line =
      Ok (fst acc ++ new, fold_left add (List.map minutes new) (snd acc)).
Proof.
  unfold parseLine.
  destruct (isSome (matchRe line markerRe)).
  - destruct (matchRe line activityRe) as [m|] eqn:E.
    + pose proof (matchRe_sets activityRe line m 1 ltac:(discriminate)
                    eq_refl E) as G1.
      pose proof (matchRe_sets activityRe line m 2 ltac:(discriminate)
                    eq_refl E) as G2.
      destruct (group 1 m) as [g1|]; [|discriminate].
      destruct (group 2 m) as [g2|]; [|discriminate].
      exists [mkActivity (trim g1) (trim g2) (resolveMinutes (trim g2))].
      split; [simpl; lia|]. split.
      * intros a [<-|[]]. split; [split|]; cbn [minutes timeStr description];
          [reflexivity | apply trim_trim | apply trim_trim].
      * intros [acts total]. reflexivity.
    + exists []. split; [simpl; lia|]. split; [intros a []|].
      intros [acts total]. cbn [fst snd List.map fold_left].
      rewrite app_nil_r. reflexivity.
  - exists []. split; [simpl; lia|]. split; [intros a []|].
    intros [acts total]. cbn [fst snd List.map fold_left].
    rewrite app_nil_r. reflexivity.
Qed.

Lemma forEach_out (lines : list str) :
  exists new : list Activity,
    List.length new <= List.length lines /\
    (forall a, In a new -> resolved a /\ trim (description a) = description a) /\
    forall acc,
      forEach parseLine lines acc =
      Ok (fst acc ++ new, fold_left add (List.map minutes new) (snd acc)).
Proof.
  induction lines as [|line lines IH].
  - exists []. split; [simpl; lia|]. split; [intros a []|].
    intros [acts total]. cbn [forEach fst snd List.map fold_left].
    rewrite app_nil_r. reflexivity.
  - destruct (parseLine_out line) as [n1 [L1 [R1 E1]]].
    destruct IH as [n2 [L2 [R2 E2]]].
    exists (n1 ++ n2). split; [rewrite length_app; simpl; lia|]. split.
    + intros a Ha. apply in_app_or in Ha. destruct Ha; auto.
    + intros acc. cbn [forEach]. rewrite E1. cbn [bind]. rewrite E2.
      cbn [fst snd]. rewrite app_assoc, map_app, fold_left_app. reflexivity.
Qed.

(** The result of the parser from what the lines after the header add. *)
Lemma parseAndStructure_out today text :
  exists name new,
    List.length new <= List.length (tl (linesOf text)) /\
    (forall a, In a new -> resolved a /\ trim (description a) = description a) /\
    (forall acc,
        forEach parseLine (tl (linesOf text)) acc =
        Ok (fst acc ++ new, fold_left add (List.map minutes new) (snd acc))) /\
    parseAndStructure today text =
    Ok (mkNote name
               match headerDate text with
               | Some d => if truthy d then d else today
               | None => today
               end
               new (div (sumMinutes new) (num 60)) (sumMinutes new)).
Proof.
  destruct (parseAndStructure_ok today text) as [n [a [t [_ [L E]]]]].
  destruct (forEach_out (tl (linesOf text))) as [new [Hlen [R F]]].
  rewrite F in L. cbn [fst snd app] in L. injection L as <- <-.
  exists n, new. repeat split; try assumption; apply R; assumption.
Qed.

(** X7. The activities follow the lines: for a header line [h] and two
    blocks of lines, the activities of the text with both blocks are the
    activities of the first block followed by those of the second, under the
    same client name and date. *)
Theorem activities_follow_lines :
  forall today h b1 b2 : str,
    linesOf h = [h] ->
    exists n n1 n2 : Note,
      parseAndStructure today (h ++ nl ++ b1 ++ nl ++ b2) = Ok n /\
      parseAndStructure today (h ++ nl ++ b1) = Ok n1 /\
      parseAndStructure today (h ++ nl ++ b2) = Ok n2 /\
      activities n = activities n1 ++ activities n2 /\
      clientName n = clientName n1 /\ clientName n1 = clientName n2 /\
      date n = date n1 /\ date n1 = date n2.
Proof.
  intros today h b1 b2 Hh.
  assert (L : forall b, linesOf (h ++ nl ++ b) = h :: linesOf b).
  { intros b. unfold linesOf, nl in *. cbn [app].
    rewrite split_app, filter_app, Hh. reflexivity. }
  assert (L12 : linesOf (h ++ nl ++ b1 ++ nl ++ b2) =
                h :: linesOf b1 ++ linesOf b2).
  { rewrite L. unfold linesOf, nl. cbn [app].
    rewrite split_app, filter_app. reflexivity. }
  destruct (parseAndStructure_ok today (h ++ nl ++ b1 ++ nl ++ b2))
    as [m [a [t [N [F E]]]]].
  destruct (parseAndStructure_ok today (h ++ nl ++ b1))
    as [m1 [a1 [t1 [N1 [F1 E1]]]]].
  destruct (parseAndStructure_ok today (h ++ nl ++ b2))
    as [m2 [a2 [t2 [N2 [F2 E2]]]]].
  unfold headerDate, firstLineOf in *.
  rewrite L12 in *. rewrite (L b1) in *. rewrite (L b2) in *.
  cbn [tl] in *.
  rewrite N in N1, N2. injection N1 as <-. injection N2 as <-.
  destruct (forEach_out (linesOf b1)) as [new1 [_ [_ O1]]].
  destruct (forEach_out (linesOf b2)) as [new2 [_ [_ O2]]].
  rewrite forEach_app, O1 in F. cbn [bind] in F. rewrite O2 in F.
  rewrite O1 in F1. rewrite O2 in F2. cbn [fst app] in *.
  injection F as <- _. injection F1 as <- _. injection F2 as <- _.
  eexists. eexists. eexists.
  split; [exact E|]. split; [exact E1|]. split; [exact E2|].
  repeat split.
Qed.

Lemma activities_follow_lines_witness :
  exists n n1 n2 : Note,
    parseAndStructure (js "11/1/2026")
      (js "Ann B 3/15/24" ++ nl ++ js "1. Call - 75" ++ nl ++
       js "2. Visit - 1.5 hrs") = Ok n /\
    parseAndStructure (js "11/1/2026")
      (js "Ann B 3/15/24" ++ nl ++ js "1. Call - 75") = Ok n1 /\
    parseAndStructure (js "11/1/2026")
      (js "Ann B 3/15/24" ++ nl ++ js "2. Visit - 1.5 hrs") = Ok n2 /\
    activities n = activities n1 ++ activities n2 /\
    clientName n = clientName n1 /\ clientName n1 = clientName n2 /\
    date n = date n1 /\ date n1 = date n2.
Proof.
  apply (activities_follow_lines (js "11/1/2026") (js "Ann B 3/15/24")
           (js "1. Call - 75") (js "2. Visit - 1.5 hrs")).
  reflexivity.
Defined.

(** X8. There are never more activities than lines after the header: each
    line gives one activity at most. *)
Theorem activities_at_most_lines :
  forall today text : str,
    exists note : Note,
      parseAndStructure today text = Ok note /\
      List.length (activities note) <= List.length (tl (linesOf text)).
Proof.
  intros today text.
  destruct (parseAndStructure_out today text) as [n [new [L [_ [_ E]]]]].
  eexists. split; [exact E | exact L].
Qed.

(** X9. In every returned note, each activity has a trimmed description and
    a trimmed time token, and its minutes are those resolved from its
    token: two activities with the same token have the same minutes. *)
Theorem activities_well_formed :
  forall today text : str,
    exists note : Note,
      parseAndStructure today text = Ok note /\
      forall a, In a (activities note) ->
                trim (description a) = description a /\
                trim (timeStr a) = timeStr a /\
                minutes a = resolveMinutes (timeStr a).
Proof.
  intros today text.
  destruct (parseAndStructure_out today text) as [n [new [_ [R [_ E]]]]].
  eexists. split; [exact E|]. cbn [activities]. intros a Ha.
  destruct (R a Ha) as [[Hm Ht] Hd]. auto.
Qed.

Lemma add_nan_l y : add nan y = nan.
Proof. reflexivity. Qed.






(** ** Tokens that always give a number *)

Lemma posOrZero_not_nan x : posOrZero x = true -> x <> nan.
Proof. intros H E. rewrite E in H. discriminate. Qed.

Lemma add_posOrZero x y :
  posOrZero x = true -> posOrZero y = true -> posOrZero (add x y) = true.
Proof.
  destruct x as [[]|[]| |[] m1 e1], y as [[]|[]| |[] m2 e2];
    cbn [posOrZero]; intros Hx Hy; try discriminate; try reflexivity.
  unfold add, SFadd. cbn [cond_Zopp Z.add binary_normalize].
  apply binary_round_posOrZero.
Qed.

Lemma fold_add_posOrZero l init :
  posOrZero init = true ->
  (forall x, In x l -> posOrZero x = true) ->
  posOrZero (fold_left add l init) = true.
Proof.
  revert init. induction l as [|x l IH]; intros init Hi H; [exact Hi|].
  cbn [fold_left]. apply IH.
  - apply add_posOrZero; [exact Hi | apply H; left; reflexivity].
  - intros y Hy. apply H. right. exact Hy.
Qed.

(** The first two branches of the conditional never give NaN or a negative
    value. *)
Lemma resolveMinutes_sure t :
  isSome (matchRe t numericRe) = true \/ includes t (js "min") = true ->
  posOrZero (resolveMinutes t) = true.
Proof.
  intros H. unfold resolveMinutes.
  destruct (matchRe t numericRe) as [mn|] eqn:En; cbn [isSome andb].
  - rewrite (digitOrDot_no_min t (numeric_chars t mn En)). cbn [negb].
    pose proof (numeric_posOrZero t mn En) as Hp.
    destruct (geb (parseFloat t) (num 10)); [exact Hp|].
    apply mul_60_posOrZero. exact Hp.
  - destruct H as [H|H]; [discriminate|]. rewrite H.
    destruct (matchRe t minRe) as [m|] eqn:E; [|reflexivity].
    pose proof (matchRe_sets minRe t m 1 ltac:(discriminate) eq_refl E) as G.
    destruct (group 1 m) as [g|] eqn:Eg; [|discriminate].
    destruct (minRe_group t m g E Eg) as [Hall Hne]. cbn [toStr].
    rewrite (parseInt_digits g Hne Hall). apply ofDecimal_posOrZero.
Qed.

(** X11. An activity whose time token is purely numeric or contains "min"
    has minutes that are a number at least 0: never NaN, never negative. *)
Theorem numeric_and_min_tokens_give_numbers :
  forall (today text : str) (note : Note) (a : Activity),
    parseAndStructure today text = Ok note ->
    In a (activities note) ->
    isSome (matchRe (timeStr a) numericRe) = true \/
    includes (timeStr a) (js "min") = true ->
    minutes a <> nan /\ geb (minutes a) (num 0) = true.
Proof.
  intros today text note a E Ha H.
  destruct (activities_resolved today text note a E Ha) as [-> _].
  pose proof (resolveMinutes_sure _ H) as Hp.
  split; [apply posOrZero_not_nan | apply posOrZero_geb_0]; exact Hp.
Qed.

Lemma numeric_and_min_tokens_give_numbers_witness :
  let text := js "Ann B 3/15/24" ++ nl ++ js "1. Call - few min" in
  let a := mkActivity (js "Call") (js "few min") (num 0) in
  let note := mkNote (js "Ann B") (js "3/15/24") [a] (num 0) (num 0) in
  parseAndStructure (js "11/1/2026") text = Ok note /\
  minutes a <> nan /\ geb (minutes a) (num 0) = true.
Proof.
  intros text a note.
  assert (E : parseAndStructure (js "11/1/2026") text = Ok note)
    by (vm_compute; reflexivity).
  split; [exact E|].
  exact (numeric_and_min_tokens_give_numbers (js "11/1/2026") text note a E
           (or_introl eq_refl) (or_intror eq_refl)).
Defined.

(** X12. When every activity of the note has a time token that is purely
    numeric or contains "min", the total is a number at least 0: the sum
    cannot turn into NaN or go below zero. *)
Theorem totals_are_numbers :
  forall (today text : str) (note : Note),
    parseAndStructure today text = Ok note ->
    (forall a, In a (activities note) ->
               isSome (matchRe (timeStr a) numericRe) = true \/
               includes (timeStr a) (js "min") = true) ->
    totalMinutes note <> nan /\ geb (totalMinutes note) (num 0) = true.
Proof.
  intros today text note E H.
  destruct (parseAndStructure_out today text) as [n [new [_ [R [_ E']]]]].
  rewrite E' in E. injection E as <-. cbn [activities totalMinutes] in *.
  assert (Hp : posOrZero (sumMinutes new) = true).
  { unfold sumMinutes. apply fold_add_posOrZero; [reflexivity|].
    intros x Hx. apply in_map_iff in Hx. destruct Hx as [a [<- Ha]].
    destruct (R a Ha) as [[-> _] _]. apply resolveMinutes_sure, H, Ha. }
  split; [apply posOrZero_not_nan | apply posOrZero_geb_0]; exact Hp.
Qed.

Lemma totals_are_numbers_witness :
  let text := js "Ann B 3/15/24" ++ nl ++ js "1. Call - 75" ++ nl ++
              js "2. Meet - 45 min" in
  let a1 := mkActivity (js "Call") (js "75") (num 75) in
  let a2 := mkActivity (js "Meet") (js "45 min") (num 45) in
  let note := mkNote (js "Ann B") (js "3/15/24") [a1; a2]
                     (num 2) (num 120) in
  parseAndStructure (js "11/1/2026") text = Ok note /\
  totalMinutes note <> nan /\ geb (totalMinutes note) (num 0) = true.
Proof.
  intros text a1 a2 note.
  assert (E : parseAndStructure (js "11/1/2026") text = Ok note)
    by (vm_compute; reflexivity).
  split; [exact E|].
  apply (totals_are_numbers (js "11/1/2026") text note E).
  intros a [<-|[<-|[]]]; [left | right]; reflexivity.
Defined.

(** ** Lines without a dash *)

Lemma In_skipn {A} k (l : list A) x : In x (skipn k l) -> In x l.
Proof.
  intros H. rewrite <- (firstn_skipn k l). apply in_or_app. right. exact H.
Qed.

(** What is left after a path is a suffix of what was left before. *)
Lemma run_rest_suffix r st st' :
  In st' (run r st) -> forall x, In x (rest st') -> In x (rest st).
Proof.
  intros H x Hx.
  destruct (run_within anyChar r (within_any r) st st' H) as [k [_ [R _]]].
  rewrite R in Hx. exact (In_skipn k _ x Hx).
Qed.

Lemma in_run_Cls p st st' :
  In st' (run (Cls p) st) ->
  exists c s, rest st = c :: s /\ p c = true.
Proof.
  cbn [run]. destruct (rest st) as [|c s]; [contradiction|].
  destruct (p c) eqn:E; [|contradiction]. intros _. exists c, s. auto.
Qed.

(** A match of the activity pattern needs a dash in the line. *)
Lemma activity_needs_dash (line : str) :
  forallb notDash line = true -> matchRe line activityRe = None.
Proof.
  intros H. destruct (matchRe line activityRe) as [m|] eqn:E;
    [|reflexivity].
  exfalso. unfold activityRe in E. rewrite matchRe_anchored in E.
  destruct (hd_error _) as [st|] eqn:Hd; [|discriminate]. clear E.
  apply hd_error_In in Hd.
  apply in_run_Cat in Hd. destruct Hd as [s1 [P1 Hd]].
  apply in_run_Cat in Hd. destruct Hd as [s2 [P2 Hd]].
  apply in_run_Cat in Hd. destruct Hd as [s3 [P3 Hd]].
  apply in_run_Cat in Hd. destruct Hd as [s4 [P4 Hd]].
  apply in_run_Cat in Hd. destruct Hd as [s5 [P5 Hd]].
  apply in_run_Cat in Hd. destruct Hd as [s6 [P6 _]].
  apply in_run_Cls in P6. destruct P6 as [c [s [R Hc]]].
  assert (Hin : In c line).
  { apply (run_rest_suffix _ _ _ P1), (run_rest_suffix _ _ _ P2),
      (run_rest_suffix _ _ _ P3), (run_rest_suffix _ _ _ P4),
      (run_rest_suffix _ _ _ P5).
    rewrite R. left. reflexivity. }
  rewrite forallb_forall in H. specialize (H c Hin).
  unfold notDash in H. rewrite Hc in H. discriminate.
Qed.

(** X13. A line without hyphen and without en dash gives no activity, even
    when it is numbered: the loop state is left as it is and the line is
    dropped without a trace. *)
Theorem line_without_dash_dropped :
  forall (line : str) (acc : list Activity * number),
    forallb notDash line = true ->
    parseLine acc line = Ok acc /\
    forall before after acc',
      forEach parseLine (before ++ line :: after) acc' =
      forEach parseLine (before ++ after) acc'.
Proof.
  intros line acc H.
  assert (P : forall a, parseLine a line = Ok a).
  { intros [acts total]. unfold parseLine.
    rewrite (activity_needs_dash line H).
    destruct (isSome (matchRe line markerRe)); reflexivity. }
  split; [apply P|].
  intros before after acc'. rewrite !forEach_app.
  destruct (forEach parseLine before acc') as [acc1|e]; cbn [bind];
    [|reflexivity].
  cbn [forEach]. rewrite P. reflexivity.
Qed.

Lemma line_without_dash_dropped_witness :
  parseLine ([], num 0) (js "1. Call insurance: 75") = Ok ([], num 0) /\
  forall before after acc',
    forEach parseLine (before ++ js "1. Call insurance: 75" :: after) acc' =
    forEach parseLine (before ++ after) acc'.
Proof.
  apply (line_without_dash_dropped (js "1. Call insurance: 75")).
  reflexivity.
Defined.

(** ** The fields of the header *)

Lemma forallb_trim (p : char -> bool) (s : str) :
  forallb p s = true -> forallb p (trim s) = true.
Proof.
  intros H. unfold trim, trimEnd, trimStart.
  rewrite forallb_rev, !dropWhile_span. apply forallb_skipn.
  rewrite forallb_rev. apply forallb_skipn. exact H.
Qed.

Lemma header_group1 s m g :
  matchRe s headerRe = Some m -> group 1 m = Some g ->
  forallb notDigit g = true.
Proof.
  intros E G.
  refine (proj1 (matchRe_group 1
                   (fun d => forallb notDigit d = true /\ d <> [])
                   headerRe s m g ltac:(discriminate) _ E G)).
  unfold headerRe. cbn [grpBody Nat.eqb].
  split; [exact I|]. split; [|tauto].
  intros st st1. apply plus_captures.
Qed.

(** X14. The client name of a note never holds a digit: a header line with
    a digit outside its date does not match, and the name is then
    "Client". *)
Theorem clientName_has_no_digit :
  forall today text : str,
    exists note : Note,
      parseAndStructure today text = Ok note /\
      forallb notDigit (clientName note) = true.
Proof.
  intros today text.
  destruct (parseAndStructure_ok today text) as [n [a [t [N [_ E]]]]].
  eexists. split; [exact E|]. cbn [clientName].
  destruct (matchRe (firstLineOf text) headerRe) as [m|] eqn:Em.
  - destruct (group 1 m) as [g|] eqn:G; [|discriminate].
    cbn [trimOf] in N. injection N as <-.
    apply forallb_trim. exact (header_group1 _ m g Em G).
  - injection N as <-. reflexivity.
Qed.

(** What a path consumes is made of the classes of the expression. *)
Lemma consumed_within P r st st1 :
  within P r -> In st1 (run r st) ->
  forallb P (consumed st st1) = true.
Proof.
  intros W H.
  destruct (run_within P r W st st1 H) as [k [I [_ [_ F]]]].
  unfold consumed. rewrite I.
  replace (idx st + k - idx st) with k by lia. exact F.
Qed.

Lemma header_group2 s m d :
  matchRe s headerRe = Some m -> group 2 m = Some d ->
  forallb isDateChar d = true.
Proof.
  intros E G.
  refine (matchRe_group 2 (fun d => forallb isDateChar d = true)
            headerRe s m d ltac:(discriminate) _ E G).
  unfold headerRe. cbn [grpBody Nat.eqb].
  split; [exact I|]. split; [exact I|]. split; [|exact I].
  split; [exact I|].
  intros st st1. apply consumed_within.
  cbn [within]. unfold isDateChar.
  repeat split; intros c H; rewrite H; cbn [orb]; try reflexivity;
    apply orb_true_r.
Qed.

(** X15. The date of a note is the current date, or a token of the header
    line that is not empty and holds only digits and slashes. *)
Theorem date_is_today_or_token :
  forall today text : str,
    exists note : Note,
      parseAndStructure today text = Ok note /\
      (date note = today \/
       headerDate text = Some (date note) /\
       date note <> [] /\ forallb isDateChar (date note) = true).
Proof.
  intros today text.
  destruct (parseAndStructure_ok today text) as [n [a [t [_ [_ E]]]]].
  eexists. split; [exact E|]. cbn [date].
  destruct (headerDate text) as [d|] eqn:Hd; [|left; reflexivity].
  pose proof (headerDate_nonempty text d Hd) as Hne.
  destruct d as [|c d]; [contradiction|]. cbn [truthy].
  right. split; [reflexivity|]. split; [exact Hne|].
  unfold headerDate in Hd.
  destruct (matchRe (firstLineOf text) headerRe) as [m|] eqn:Em;
    [|discriminate].
  exact (header_group2 _ m _ Em Hd).
Qed.

(** ** The file name of the report *)

(** The characters of the result are underscores or characters of the text
    that no match covers. *)
Lemma replaceFrom_removes (Q : char -> bool) r :
  forallb Q underscore = true ->
  (forall i c s,
      match run r (MState i (c :: s) []) with
      | [] => Q c = true
      | st :: _ => idx st - i = 0 -> Q c = true
      end) ->
  forall s i skip, forallb Q (replaceFrom r s i skip) = true.
Proof.
  intros Hnew H s. induction s as [|c s IH]; intros i skip.
  - destruct skip; cbn [replaceFrom]; [|reflexivity].
    destruct (run r (MState i [] [])); [reflexivity|].
    rewrite app_nil_r. exact Hnew.
  - destruct skip as [|skip]; cbn [replaceFrom]; [|apply IH].
    specialize (H i c s).
    destruct (run r (MState i (c :: s) [])) as [|st l].
    + cbn [forallb]. rewrite H, IH. reflexivity.
    + rewrite forallb_app, Hnew. cbn [andb].
      destruct (idx st - i); [|apply IH].
      cbn [forallb]. rewrite (H eq_refl), IH. reflexivity.
Qed.

(** The characters of the result are underscores or characters of the
    text. *)
Lemma replaceFrom_keeps (Q : char -> bool) r :
  forallb Q underscore = true ->
  forall s i skip,
    forallb Q s = true -> forallb Q (replaceFrom r s i skip) = true.
Proof.
  intros Hnew s. induction s as [|c s IH]; intros i skip Hs.
  - destruct skip; cbn [replaceFrom]; [|reflexivity].
    destruct (run r (MState i [] [])); [reflexivity|].
    rewrite app_nil_r. exact Hnew.
  - cbn [forallb] in Hs. apply andb_prop in Hs. destruct Hs as [Hc Hs].
    destruct skip as [|skip]; cbn [replaceFrom]; [|apply IH; exact Hs].
    destruct (run r (MState i (c :: s) [])) as [|st l].
    + cbn [forallb]. rewrite Hc, (IH _ _ Hs). reflexivity.
    + rewrite forallb_app, Hnew. cbn [andb].
      destruct (idx st - i); [|apply IH; exact Hs].
      cbn [forallb]. rewrite Hc, (IH _ _ Hs). reflexivity.
Qed.

(** One step of the replacement of [/\s+/g]. *)
Lemma replace_spaces_step (c : char) (s : str) i :
  replaceFrom spacesRe (c :: s) i 0 =
  if isSpace c
  then underscore ++ replaceFrom spacesRe s (S i) (span isSpace s)
  else c :: replaceFrom spacesRe s (S i) 0.
Proof.
  cbn [replaceFrom]. unfold spacesRe at 1. rewrite run_Rep. cbn [rest].
  rewrite counts_greedy. cbn [span].
  destruct (isSpace c).
  - rewrite (rev_seq_top 1 (S (span isSpace s))) by lia.
    cbn [List.map advance idx].
    replace (i + S (span isSpace s) - i) with (S (span isSpace s)) by lia.
    reflexivity.
  - reflexivity.
Qed.

Lemma replace_spaces_nil i : replaceFrom spacesRe [] i 0 = [].
Proof. reflexivity. Qed.

(** One step of the replacement of [/\//g]. *)
Lemma replace_slash_step (c : char) (s : str) i :
  replaceFrom slashRe (c :: s) i 0 =
  slashToUnderscore c :: replaceFrom slashRe s (S i) 0.
Proof.
  cbn [replaceFrom]. unfold slashRe at 1. cbn [run rest].
  unfold slashToUnderscore.
  destruct (eqc (ch "/") c).
  - cbn [advance idx].
    replace (i + 1 - i) with 1 by lia. reflexivity.
  - reflexivity.
Qed.

Lemma replace_spaces_removes (s : str) i skip :
  forallb notSpace (replaceFrom spacesRe s i skip) = true.
Proof.
  apply replaceFrom_removes; [reflexivity|].
  intros j c t. unfold spacesRe. rewrite run_Rep. cbn [rest].
  rewrite counts_greedy. cbn [span]. unfold notSpace.
  destruct (isSpace c).
  - rewrite (rev_seq_top 1 (S (span isSpace t))) by lia.
    cbn [List.map advance idx]. lia.
  - reflexivity.
Qed.

Lemma replace_slash_removes (s : str) i skip :
  forallb notSlash (replaceFrom slashRe s i skip) = true.
Proof.
  apply replaceFrom_removes; [reflexivity|].
  intros j c t. unfold slashRe. cbn [run rest]. unfold notSlash.
  destruct (eqc (ch "/") c); [|reflexivity].
  cbn [advance idx]. lia.
Qed.

(** For [/\s+/g] the index in the whole text does not matter. *)
Lemma replace_spaces_index (s : str) :
  forall i j skip,
    replaceFrom spacesRe s i skip = replaceFrom spacesRe s j skip.
Proof.
  induction s as [|c s IH]; intros i j skip.
  - destruct skip; reflexivity.
  - destruct skip as [|skip].
    + rewrite !replace_spaces_step.
      destruct (isSpace c); f_equal; apply IH.
    + cbn [replaceFrom]. apply IH.
Qed.

(** The characters that a match covers are dropped. *)
Lemma replaceFrom_skip r (W b : str) i :
  replaceFrom r (W ++ b) i (List.length W) =
  replaceFrom r b (i + List.length W) 0.
Proof.
  revert i. induction W as [|w W IH]; intros i; cbn [app List.length].
  - rewrite Nat.add_0_r. reflexivity.
  - cbn [replaceFrom]. rewrite IH. f_equal. lia.
Qed.

Lemma replace_spaces_prefix (a s : str) i :
  forallb notSpace a = true ->
  replaceFrom spacesRe (a ++ s) i 0 =
  a ++ replaceFrom spacesRe s (i + List.length a) 0.
Proof.
  revert i. induction a as [|c a IH]; intros i H; cbn [app List.length].
  - rewrite Nat.add_0_r. reflexivity.
  - cbn [forallb] in H. apply andb_prop in H. destruct H as [Hc Ha].
    unfold notSpace in Hc. apply negb_true_iff in Hc.
    rewrite replace_spaces_step, Hc, (IH _ Ha). do 3 f_equal. lia.
Qed.

Lemma trimStart_fixed_span (b : str) : trimStart b = b -> span isSpace b = 0.
Proof.
  destruct b as [|c b]; [reflexivity|]. unfold trimStart. cbn [dropWhile span].
  destruct (isSpace c); [|reflexivity].
  intros H. exfalso.
  pose proof (f_equal (@List.length _) H) as L.
  rewrite dropWhile_span, length_skipn in L. simpl in L. lia.
Qed.

(** [replace(/\s+/g, '_')] goes through the text once: outside a run of
    white space it is [underscoreRuns false], and once a run has been
    replaced the rest of the run is passed over as by [underscoreRuns true]. *)
Lemma replace_spaces_runs (s : str) :
  forall i,
    replaceFrom spacesRe s i 0 = underscoreRuns false s /\
    replaceFrom spacesRe s i (span isSpace s) = underscoreRuns true s.
Proof.
  induction s as [|c s IH]; intros i.
  - split; reflexivity.
  - destruct (IH (S i)) as [IH0 IH1].
    assert (H0 : replaceFrom spacesRe (c :: s) i 0 =
                 underscoreRuns false (c :: s)).
    { rewrite replace_spaces_step. cbn [underscoreRuns].
      destruct (isSpace c); [rewrite IH1|rewrite IH0]; reflexivity. }
    split; [exact H0|].
    cbn [span underscoreRuns]. destruct (isSpace c) eqn:Ec.
    + cbn [replaceFrom app]. exact IH1.
    + rewrite replace_spaces_step, Ec, IH0. reflexivity.
Qed.

(** [replace(/\//g, '_')] changes the slashes, one by one. *)
Lemma replace_slash_map (s : str) :
  forall i, replaceFrom slashRe s i 0 = List.map slashToUnderscore s.
Proof.
  induction s as [|c s IH]; intros i; [reflexivity|].
  rewrite replace_slash_step, IH. reflexivity.
Qed.

(** X16. [replace(/\s+/g, '_')], which [generatePDF] applies to the client
    name: a text without white space is kept as it is, and in [a W b], where
    [a] has no white space, [W] is a run of white space and [b] does not
    start with white space, the whole run becomes one underscore and the
    rest is replaced in the same way. *)
Theorem replace_spaces_collapses :
  forall a W b : str,
    forallb notSpace a = true ->
    forallb isSpace W = true -> W <> [] ->
    trimStart b = b ->
    replaceG a spacesRe = a /\
    replaceG (a ++ W ++ b) spacesRe = a ++ js "_" ++ replaceG b spacesRe.
Proof.
  intros a W b Ha HW Hne Hb. unfold replaceG. split.
  - rewrite <- (app_nil_r a) at 1.
    rewrite (replace_spaces_prefix a [] 0 Ha), replace_spaces_nil.
    apply app_nil_r.
  - rewrite (replace_spaces_prefix a (W ++ b) 0 Ha). f_equal.
    destruct W as [|w W]; [contradiction|].
    cbn [forallb] in HW. apply andb_prop in HW. destruct HW as [Hw HW].
    cbn [app]. rewrite replace_spaces_step, Hw.
    change underscore with (js "_"). f_equal.
    rewrite (span_app_stop isSpace W b HW (trimStart_fixed_span b Hb)).
    rewrite replaceFrom_skip. apply replace_spaces_index.
Qed.

Lemma replace_spaces_collapses_witness :
  replaceG (js "Susan") spacesRe = js "Susan" /\
  replaceG (js "Susan" ++ js "  " ++ js "Johnson") spacesRe =
  js "Susan" ++ js "_" ++ replaceG (js "Johnson") spacesRe.
Proof.
  apply (replace_spaces_collapses (js "Susan") (js "  ") (js "Johnson"));
    try reflexivity.
  discriminate.
Defined.

(** X17. The file name that [generatePDF] gives to the report is the client
    name with every run of white space turned into one underscore, an
    underscore, the date with every slash turned into an underscore, and
    ".pdf"; so the part made from the client name has no white space and the
    part made from the date has no slash. *)
Theorem pdfFileName_parts :
  forall structuredData : Note,
    pdfFileName structuredData =
    underscoreRuns false (clientName structuredData) ++ js "_" ++
    List.map slashToUnderscore (date structuredData) ++ js ".pdf" /\
    forallb notSpace (underscoreRuns false (clientName structuredData))
    = true /\
    forallb notSlash (List.map slashToUnderscore (date structuredData))
    = true.
Proof.
  intros note.
  pose proof (replace_spaces_runs (clientName note) 0) as [Hn _].
  pose proof (replace_slash_map (date note) 0) as Hd.
  split; [|split].
  - unfold pdfFileName, replaceG. rewrite Hn, Hd. reflexivity.
  - rewrite <- Hn. apply replace_spaces_removes.
  - rewrite <- Hd. apply replace_slash_removes.
Qed.

Lemma dateChar_notSpace c : isDateChar c = true -> notSpace c = true.
Proof. unfold isDateChar, notSpace. intros H. char_cases. Qed.

(** X18. For a text whose header line carries a date, the file name of the
    report of its note has no white space at all. *)
Theorem pdfFileName_without_space :
  forall today text d : str,
    headerDate text = Some d ->
    exists note : Note,
      parseAndStructure today text = Ok note /\
      forallb notSpace (pdfFileName note) = true.
Proof.
  intros today text d Hd.
  destruct (parseAndStructure_ok today text) as [n [a [t [_ [_ E]]]]].
  eexists. split; [exact E|].
  unfold pdfFileName. cbn [clientName date]. rewrite Hd.
  pose proof (headerDate_nonempty text d Hd) as Hne.
  destruct d as [|c d]; [contradiction|]. cbn [truthy].
  assert (Hc : forallb isDateChar (c :: d) = true).
  { unfold headerDate in Hd.
    destruct (matchRe (firstLineOf text) headerRe) as [m|] eqn:Em;
      [|discriminate].
    exact (header_group2 _ m _ Em Hd). }
  rewrite !forallb_app. unfold replaceG.
  rewrite (replace_spaces_removes n 0 0).
  rewrite (replaceFrom_keeps notSpace slashRe eq_refl (c :: d) 0 0).
  - reflexivity.
  - apply (forallb_weaken isDateChar notSpace); [|exact Hc].
    exact dateChar_notSpace.
Qed.

Lemma pdfFileName_without_space_witness :
  exists note : Note,
    parseAndStructure (js "11/1/2026")
                      (js "Susan  Johnson 3/15/24" ++ nl ++
                       js "1. Call - 75") = Ok note /\
    forallb notSpace (pdfFileName note) = true.
Proof.
  apply (pdfFileName_without_space (js "11/1/2026") _ (js "3/15/24")).
  vm_compute. reflexivity.
Defined.
